(** * github-airtable-importer: the reconciliation core

    A shallow embedding of [githubAirtableImport]: the field projection
    [fieldsFromIssue], the join map [issueNumbersToExistingRows], the diff
    performed by the filter callback of [updateExistingRows], the
    ten-at-a-time chunk loop shared by [insertNewRows] and
    [updateExistingRows], and the theorems relating them to the written
    specification of the importer. *)

From Stdlib Require Import ZArith Ascii String DecimalString DecimalPos DecimalZ.
From stdpp Require Import base option strings list gmap.
From Equations Require Import Equations.

Local Open Scope string_scope.

#[local] Set Warnings "-register-all".

(** ** The fragment of JavaScript the importer relies on *)

Module Js.

(** Primitive values.  Numbers are the integers a double holds exactly
    (issue numbers, Airtable integer cells); JSON carries no NaN. *)
Inductive Prim : Type :=
| Undefined
| Null
| Bool (b : bool)
| Num (n : Z)
| Str (s : string).

(** Values found in an Airtable cell: a primitive, an array (multiple
    select, linked records, lookups) or some other object (collaborator,
    attachment).  The program never looks inside a non-array object. *)
Inductive Value : Type :=
| VPrim (p : Prim)
| VArr (elems : list Value)
| VObj.

#[global] Instance Prim_eq_dec : EqDecision Prim.
Proof. solve_decision. Defined.

(** The outcome of code that may throw (a [TypeError] on a bad property
    access or method call, or a rejected promise once awaited).  The only
    handler in the program, the [catch] of [importIssuesToAirtable], does
    not tell exceptions apart. *)
Inductive Result (A : Type) : Type :=
| Ok (a : A)
| Thrown.
Arguments Ok {A} a.
Arguments Thrown {A}.

Definition bind {A B} (r : Result A) (k : A -> Result B) : Result B :=
  match r with
  | Ok a => k a
  | Thrown => Thrown
  end.

(** [ToBoolean]. *)
Definition truthyPrim (p : Prim) : bool :=
  match p with
  | Undefined | Null => false
  | Bool b => b
  | Num n => negb (Z.eqb n 0)
  | Str s => negb (String.eqb s "")
  end.

Definition truthy (v : Value) : bool :=
  match v with
  | VPrim p => truthyPrim p
  | VArr _ | VObj => true
  end.

(** [v || undefined]. *)
Definition orUndefined (v : Value) : Value :=
  if truthy v then v else VPrim Undefined.

(** [a === b].  Objects are equal only to themselves; the operands the
    importer compares never alias (one side is read from a freshly built
    object literal), so an object operand makes the test false. *)
Definition strictEq (a b : Value) : bool :=
  match a, b with
  | VPrim p, VPrim q => bool_decide (p = q)
  | _, _ => false
  end.

(** [Number::toString] on an exactly represented integer. *)
Definition numberToString (n : Z) : string :=
  NilZero.string_of_int (Z.to_int n).

(** [Array.prototype.join(',')] on strings. *)
Fixpoint join (pieces : list string) : string :=
  match pieces with
  | [] => ""
  | [s] => s
  | s :: rest => s ++ "," ++ join rest
  end.

Definition primToString (p : Prim) : string :=
  match p with
  | Undefined => "undefined"
  | Null => "null"
  | Bool true => "true"
  | Bool false => "false"
  | Num n => numberToString n
  | Str s => s
  end.

(** [ToString], as applied to a computed property key.  An array joins
    its elements with commas, rendering [null] and [undefined] elements
    as the empty string. *)
Fixpoint toString (v : Value) : string :=
  match v with
  | VPrim p => primToString p
  | VArr elems =>
      join (List.map (fun e =>
                        match e with
                        | VPrim Undefined | VPrim Null => ""
                        | _ => toString e
                        end) elems)
  | VObj => "[object Object]"
  end.

(** [s.split(',')]: never empty, [''.split(',')] is [['']]. *)
Fixpoint split (s : string) : list string :=
  match s with
  | EmptyString => [""]
  | String c rest =>
      if Ascii.eqb c ","%char then "" :: split rest
      else match split rest with
           | piece :: pieces => String c piece :: pieces
           | [] => [String c ""]
           end
  end.

(** [Array.prototype.filter] with a callback that may throw: elements
    are visited in order and the first exception aborts the call. *)
Fixpoint filterR {A} (p : A -> Result bool) (l : list A) : Result (list A) :=
  match l with
  | [] => Ok []
  | x :: rest =>
      bind (p x) (fun keep =>
      bind (filterR p rest) (fun kept =>
      Ok (if keep then x :: kept else kept)))
  end.

(** [Array.prototype.map] with a callback that may throw. *)
Fixpoint mapR {A B} (f : A -> Result B) (l : list A) : Result (list B) :=
  match l with
  | [] => Ok []
  | x :: rest =>
      bind (f x) (fun y =>
      bind (mapR f rest) (fun ys => Ok (y :: ys)))
  end.

End Js.

Import Js.


(** ** The importer *)

(** *** Issues, as returned by the GitHub listing *)

Record Label : Type := { name : string }.

Record User : Type := { login : string }.

Record Issue : Type := {
  created_at : string;
  updated_at : string;
  title : string;
  body : option string;          (* [null] when the issue has no text *)
  html_url : string;
  number : Z;
  labels : list Label;
  assignee : option User;        (* [null] when nobody is assigned *)
  state : string
}.

(** *** Airtable records *)

Record Row : Type := {
  id : string;
  fields : gmap string Value
}.

(** [row.fields[key]]: a missing property reads as [undefined]. *)
Definition getField (row : Row) (key : string) : Value :=
  default (VPrim Undefined) (fields row !! key).

(** The object literal [{ id, fields }] sent to [airtableTable.update]. *)
Record Update : Type := {
  update_id : string;
  update_fields : list (string * Prim)
}.

(** *** [fieldsFromIssue]

    The object literal, as the list of its properties in creation order,
    which is the order [for ... in] visits them. *)
Definition fieldsFromIssue (issue : Issue) : list (string * Prim) :=
  [ ("Created At", Str (created_at issue));
    ("Updated At", Str (updated_at issue));
    ("Issue Number", Num (number issue));
    ("Name", Str (title issue));
    ("Description", match body issue with Some b => Str b | None => Null end);
    ("Github URL", Str (html_url issue));
    ("Labels", Str (join (List.map name (labels issue))));
    ("Status", Str (state issue)) ]
  ++ match assignee issue with
     | Some a => [ ("Assigned to", Str ("@" ++ login a)) ]
     | None => []
     end.

(** [fields[key]] on such a property list. *)
Fixpoint prop (fs : list (string * Prim)) (key : string) : option Prim :=
  match fs with
  | [] => None
  | (k, v) :: rest => if String.eqb k key then Some v else prop rest key
  end.

(** The rest pattern [{ 'Created At': _, 'Updated At': _2, ...fields }]. *)
Definition omitTimestamps (fs : list (string * Prim)) : list (string * Prim) :=
  List.filter
    (fun kv => negb (String.eqb (fst kv) "Created At")
               && negb (String.eqb (fst kv) "Updated At"))
    fs.

(** *** [issueNumbersToExistingRows] *)

(** [Object.fromEntries]: entries are written in order, the key goes
    through [ToString], a later entry overwrites an earlier one. *)
Definition fromEntries (entries : list (Value * Row)) : gmap string Row :=
  fold_left (fun obj kv => <[toString (fst kv) := snd kv]> obj) entries ∅.

Definition issueNumbersToExistingRows (existingRows : list Row) : gmap string Row :=
  fromEntries (List.map (fun row => (getField row "Issue Number", row)) existingRows).

(** [issueNumbersToExistingRows[n]] for a number [n].  The key is a
    decimal numeral, and [Object.prototype] has no property so named, so
    the read sees own properties only. *)
Definition existingRowFor (m : gmap string Row) (n : Z) : option Row :=
  m !! numberToString n.

(** Truthiness of that read: a record is an object, hence truthy. *)
Definition hasExistingRow (m : gmap string Row) (i : Issue) : bool :=
  match existingRowFor m (number i) with
  | Some _ => true
  | None => false
  end.

(** *** The filter callback of [updateExistingRows] *)

(** [existingValues.has(value)] for a string [value]. *)
Definition setHas (existingArrValues : list Value) (value : string) : bool :=
  existsb (fun v => strictEq v (VPrim (Str value))) existingArrValues.

(** [for (const value of newArrValues) if (!existingValues.has(value)) ...] *)
Fixpoint someValueMissing (existingArrValues : list Value)
    (newArrValues : list string) : bool :=
  match newArrValues with
  | [] => false
  | value :: rest =>
      if negb (setHas existingArrValues value) then true
      else someValueMissing existingArrValues rest
  end.

Definition nonEmpty (s : string) : bool := truthyPrim (Str s).

(** The body of [if (existingRow.fields[key] instanceof Array) { ... }]:
    the value handed back by its [return], or the exception raised when
    [fields[key]] has no [split] method. *)
Definition compareArray (existingField : list Value) (newField : Prim)
    : Result bool :=
  let existingArrValues := List.filter truthy existingField in
  if (0 <? length existingArrValues)%nat && negb (truthyPrim newField)
  then Ok true
  else
    match newField with
    | Str s =>
        let newArrValues := List.filter nonEmpty (split s) in
        if negb (length existingArrValues =? length newArrValues)%nat
        then Ok true
        else if someValueMissing existingArrValues newArrValues
        then Ok true
        else Ok false
    | _ => Thrown
    end.

(** What one iteration of the [for ... in] loop does. *)
Inductive Completion : Type :=
| Continue
| Return (b : bool)
| Throw.

Definition compareField (existingField : Value) (newField : Prim) : Completion :=
  match existingField with
  | VArr elems =>
      match compareArray elems newField with
      | Ok b => Return b
      | Thrown => Throw
      end
  | _ =>
      if negb (strictEq (orUndefined existingField)
                        (orUndefined (VPrim newField)))
      then Return true
      else Continue
  end.

(** The loop [for (const key in fields) { ... }] followed by
    [return false]. *)
Fixpoint forIn (existingRow : Row) (fs : list (string * Prim)) : Result bool :=
  match fs with
  | [] => Ok false
  | (key, v) :: rest =>
      match compareField (getField existingRow key) v with
      | Continue => forIn existingRow rest
      | Return b => Ok b
      | Throw => Thrown
      end
  end.

(** The whole callback.  Reading [existingRow.fields] throws when the
    issue has no row in the map. *)
Definition needsUpdate (m : gmap string Row) (issue : Issue) : Result bool :=
  let fs := omitTimestamps (fieldsFromIssue issue) in
  match existingRowFor m (number issue) with
  | Some existingRow => forIn existingRow fs
  | None => Thrown
  end.

(** The [.filter(...)] stage of [rowsToUpdate]. *)
Definition issuesToUpdate (m : gmap string Row) (existingIssues : list Issue)
    : Result (list Issue) :=
  filterR (needsUpdate m) existingIssues.

(** The [.map(...)] stage. *)
Definition toUpdateRecord (m : gmap string Row) (issue : Issue) : Result Update :=
  match existingRowFor m (number issue) with
  | Some existingRow =>
      Ok {| update_id := id existingRow; update_fields := fieldsFromIssue issue |}
  | None => Thrown
  end.

Definition rowsToUpdate (m : gmap string Row) (existingIssues : list Issue)
    : Result (list Update) :=
  bind (issuesToUpdate m existingIssues) (mapR (toUpdateRecord m)).

(** *** The split of the issues in [importIssuesToAirtable] *)

(** The two argument expressions of the final [Promise.all]. *)
Definition toInsert (issues : list Issue) (existingRows : list Row) : list Issue :=
  List.filter (fun i => negb (hasExistingRow (issueNumbersToExistingRows existingRows) i))
    issues.

Definition existingIssues (issues : list Issue) (existingRows : list Row) : list Issue :=
  List.filter (fun i => hasExistingRow (issueNumbersToExistingRows existingRows) i)
    issues.

(** The rows [updateExistingRows] goes on to write: [rowsToUpdate] on the
    second argument expression. *)
Definition toUpdate (issues : list Issue) (existingRows : list Row)
    : Result (list Update) :=
  rowsToUpdate (issueNumbersToExistingRows existingRows)
    (existingIssues issues existingRows).

(** *** The chunk loop *)

(** [rows.slice(from, to)] for [0 <= from <= to]. *)
Definition slice {A} (rows : list A) (from to : nat) : list A :=
  take (to - from) (drop from rows).

(** [for (let startIndex = 0; startIndex < rows.length; startIndex += 10)
      chunks.push(rows.slice(startIndex, startIndex + 10))],
    from an arbitrary [startIndex]. *)
Equations? chunkLoop {A} (rows : list A) (startIndex : nat) : list (list A)
  by wf (length rows - startIndex) lt :=
  chunkLoop rows startIndex with decide (startIndex < length rows) := {
    | left _ => slice rows startIndex (startIndex + 10)
                :: chunkLoop rows (startIndex + 10);
    | right _ => [] }.
Proof. lia. Qed.

Definition chunks {A} (rows : list A) : list (list A) := chunkLoop rows 0.

(** [results.reduce((memo, chunkResult) => memo + chunkResult.length, 0)] *)
Definition countResults {B} (results : list (list B)) : nat :=
  fold_left (fun memo chunkResult => memo + length chunkResult) results 0.

(** [await Promise.all(chunks.map(call))]: every call is made; the
    results come back in chunk order unless one of them rejects. *)
Definition promiseAll {A B} (call : list A -> Result (list B))
    (cs : list (list A)) : Result (list (list B)) :=
  mapR call cs.

(** *** [insertNewRows], [updateExistingRows], [importIssuesToAirtable]

    [create] and [update] stand for [airtableTable.create(chunk, {
    typecast: true })] and [airtableTable.update(chunk, { typecast: true
    })]; [Record_] is whatever the service answers per written record. *)
Section Importer.

Context {Record_ : Type}.
Variable create : list (list (string * Prim)) -> Result (list Record_).
Variable update : list Update -> Result (list Record_).

Definition writeChunks {A} (call : list A -> Result (list Record_))
    (rows : list A) : Result nat :=
  bind (promiseAll call (chunks rows)) (fun results => Ok (countResults results)).

(** A new row [{ fields: fieldsFromIssue(issue) }] is kept as its
    [fields]. *)
Definition insertNewRows (newIssues : list Issue) : Result nat :=
  let newRows := List.map fieldsFromIssue newIssues in
  writeChunks create newRows.

Definition updateExistingRows (m : gmap string Row) (existingIssues : list Issue)
    : Result nat :=
  bind (rowsToUpdate m existingIssues) (writeChunks update).

(** [{ numNewRows, numUpdatedRows }], or [undefined] after the [catch]. *)
Definition importIssuesToAirtable (issues : list Issue) (existingRows : list Row)
    : option (nat * nat) :=
  let m := issueNumbersToExistingRows existingRows in
  match insertNewRows (toInsert issues existingRows),
        updateExistingRows m (existingIssues issues existingRows) with
  | Ok numNewRows, Ok numUpdatedRows => Some (numNewRows, numUpdatedRows)
  | _, _ => None
  end.

End Importer.

(** ** [src/ghair.js]: the insert-only importer

    It projects every issue with the same object literal, inline, and
    writes all of them through the same chunk loop. *)

Module Ghair.

Section Importer.

Context {Record_ : Type}.
Variable create : list (list (string * Prim)) -> Result (list Record_).

(** The callback of [issues.map(...)], less the [{ fields: ... }] wrapper. *)
Definition allIssuesEntry (issue : Issue) : list (string * Prim) :=
  [ ("Created At", Str (created_at issue));
    ("Updated At", Str (updated_at issue));
    ("Issue Number", Num (number issue));
    ("Name", Str (title issue));
    ("Description", match body issue with Some b => Str b | None => Null end);
    ("Github URL", Str (html_url issue));
    ("Labels", Str (join (List.map name (labels issue))));
    ("Status", Str (state issue)) ]
  ++ match assignee issue with
     | Some a => [ ("Assigned to", Str ("@" ++ login a)) ]
     | None => []
     end.

Definition importIssuesToAirtable (issues : list Issue) : option nat :=
  let allIssues := List.map allIssuesEntry issues in
  match bind (promiseAll create (chunks allIssues))
             (fun results => Ok (countResults results)) with
  | Ok n => Some n
  | Thrown => None
  end.

End Importer.

End Ghair.

(** ** Vocabulary for the statements *)

(** The callback flags a field: the iteration for [kv] ends in
    [return true]. *)
Definition fieldDiffers (existingRow : Row) (kv : string * Prim) : Prop :=
  compareField (getField existingRow (fst kv)) (snd kv) = Return true.

(** Some projected field other than the two timestamps is flagged. *)
Definition projectionDiffers (existingRow : Row) (issue : Issue) : Prop :=
  exists kv, In kv (omitTimestamps (fieldsFromIssue issue))
             /\ fieldDiffers existingRow kv.

(** No iteration of the loop can reach [split] on a non-string: an
    array is stored only under keys whose projected value is a string. *)
Definition comparable (existingRow : Row) (issue : Issue) : Prop :=
  forall key v elems,
    In (key, v) (omitTimestamps (fieldsFromIssue issue)) ->
    getField existingRow key = VArr elems ->
    exists s, v = Str s.

(** The issues that pass the filter of [updateExistingRows], before they
    are turned into update records. *)
Definition toUpdateIssues (issues : list Issue) (existingRows : list Row)
    : Result (list Issue) :=
  issuesToUpdate (issueNumbersToExistingRows existingRows)
    (existingIssues issues existingRows).

(** The stored entries and the parsed tokens the array rule works on. *)
Definition storedEntries (elems : list Value) : list Value :=
  List.filter truthy elems.

Definition parsedTokens (s : string) : list string :=
  List.filter nonEmpty (split s).

(** The Labels string of an issue. *)
Definition labelsString (issue : Issue) : string :=
  join (List.map name (labels issue)).

(** Written after the specification: "normalizing missing/empty to a
    single canonical absent value".  [None] is the absent value; the
    missing or empty values are [undefined], [null], [false], [0] and the
    empty string. *)
Definition normalizeEmpty (v : Value) : option Value :=
  match v with
  | VPrim Undefined | VPrim Null | VPrim (Bool false) => None
  | VPrim (Num n) => if Z.eq_dec n 0%Z then None else Some v
  | VPrim (Str s) => if string_dec s "" then None else Some v
  | _ => Some v
  end.

(** ** Sample data *)

Definition sampleIssue (n : Z) (st : string) (ls : list string)
    (a : option string) : Issue :=
  {| created_at := "2020-01-01T00:00:00Z";
     updated_at := "2020-03-04T05:06:07Z";
     title := "Crash on start";
     body := Some "It crashes.";
     html_url := "https://github.com/o/r/issues/5";
     number := n;
     labels := List.map (fun l => {| name := l |}) ls;
     assignee := (fun h => {| login := h |}) <$> a;
     state := st |}.

Definition sampleRow (i : string) (fs : list (string * Value)) : Row :=
  {| id := i; fields := list_to_map fs |}.

(** A row as Airtable returns it after a first import of
    [sampleIssue 5 "open" ["bug"; "ui"] None], with Labels a multiple
    select column. *)
Definition storedIssue5 (ls : Value) (st : string) : list (string * Value) :=
  [ ("Created At", VPrim (Str "2019-12-31T23:00:00.000Z"));
    ("Updated At", VPrim (Str "2020-01-01T00:00:00.000Z"));
    ("Issue Number", VPrim (Num 5));
    ("Name", VPrim (Str "Crash on start"));
    ("Description", VPrim (Str "It crashes."));
    ("Github URL", VPrim (Str "https://github.com/o/r/issues/5"));
    ("Labels", ls);
    ("Status", VPrim (Str st)) ].

(** Two rows for issue 7, and one for issue 8. *)
Definition dupOld : Row :=
  sampleRow "recOLD" [("Issue Number", VPrim (Num 7)); ("Status", VPrim (Str "open"))].
Definition dupNew : Row :=
  sampleRow "recNEW" [("Issue Number", VPrim (Str "7")); ("Status", VPrim (Str "closed"))].
Definition other8 : Row :=
  sampleRow "recEIGHT" [("Issue Number", VPrim (Num 8))].

(** ** The rest of the program *)

(** *** [options.githubUrl.split('/')] *)

(** [s.split(sep)] for a one-character separator. *)
Fixpoint splitOn (sep : ascii) (s : string) : list string :=
  match s with
  | EmptyString => [""]
  | String c rest =>
      if Ascii.eqb c sep then "" :: splitOn sep rest
      else match splitOn sep rest with
           | piece :: pieces => String c piece :: pieces
           | [] => [String c ""]
           end
  end.

(** [s.includes(c)] for a character [c]. *)
Fixpoint hasChar (c : ascii) (s : string) : bool :=
  match s with
  | EmptyString => false
  | String d rest => Ascii.eqb d c || hasChar c rest
  end.

(** [const [owner, repo] = options.githubUrl.split('/')]: the first two
    pieces, a missing one reading as [undefined]. *)
Definition ownerRepo (githubUrl : string) : Prim * Prim :=
  match splitOn "/" githubUrl with
  | owner :: repo :: _ => (Str owner, Str repo)
  | [owner] => (Str owner, Undefined)
  | [] => (Undefined, Undefined)
  end.

(** *** [validateOptions] *)

Module Cli.

(** The options object; a property the command line did not supply is
    [undefined]. *)
Record Options : Type := {
  githubToken : option string;
  airtableApiKey : option string;
  airtableBase : option string;
  airtableTable : option string;
  githubUrl : option string;
  state : option string
}.

Definition optionValue (o : option string) : Prim :=
  match o with
  | Some s => Str s
  | None => Undefined
  end.

(** [String.prototype.toLowerCase] restricted to ASCII: A to Z are
    lowered, every other byte is kept.  On a string with a character
    outside ASCII the real function may change that character too, but
    what it yields then still holds a character outside ASCII or the
    letter k (from the Kelvin sign), which none of open, closed and all
    contains; the test in [validateOptions] has the same result. *)
Definition lowerChar (c : ascii) : ascii :=
  let n := nat_of_ascii c in
  if (65 <=? n)%nat && (n <=? 90)%nat then ascii_of_nat (n + 32) else c.

Fixpoint toLowerCase (s : string) : string :=
  match s with
  | EmptyString => EmptyString
  | String c rest => String (lowerChar c) (toLowerCase rest)
  end.

(** [choices.includes(s)] *)
Definition includes (choices : list string) (s : string) : bool :=
  existsb (String.eqb s) choices.

(** How a call of [validateOptions] ends: it returns, it leaves through
    [process.exit(1)], or it throws. *)
Inductive Outcome : Type :=
| Returns
| Exits
| Throws.

(** The text of a [log] line, less its [chalk] styling. *)
Definition required (flag : string) : string :=
  "Usage: " ++ flag ++ " arg is required".

Definition stateUsage : string :=
  "Usage: --state must be one of open | closed | all".

(** [if (!value) { hasError = true; log(...) }] on the pair of
    [hasError] and the lines logged so far. *)
Definition requireArg (value : option string) (flag : string)
    (st : bool * list string) : bool * list string :=
  if negb (truthyPrim (optionValue value))
  then (true, (snd st ++ [required flag])%list)
  else st.

(** The lines logged, and how the call ends.  Reading [toLowerCase] off a
    missing [state] throws before [hasError] is looked at. *)
Definition validateOptions (options : Options) : list string * Outcome :=
  let st := requireArg (githubToken options) "--github-token" (false, []) in
  let st := requireArg (airtableApiKey options) "--airtable-api-key" st in
  let st := requireArg (airtableBase options) "--airtable-base" st in
  let st := requireArg (airtableTable options) "--airtable-table" st in
  let st := requireArg (githubUrl options) "--github-url" st in
  match state options with
  | None => (snd st, Throws)
  | Some s =>
      let st :=
        if negb (includes ["open"; "closed"; "all"] (toLowerCase s))
        then (true, (snd st ++ [stateUsage])%list)
        else st in
      if fst st then ((snd st ++ [""])%list, Exits) else (snd st, Returns)
  end.

End Cli.

(** *** [fetchGithubIssues] and [getExistingAirtableIssueRows] *)

(** The [pull_request] object GitHub attaches to a listed pull request. *)
Record PullRequest : Type := { pr_html_url : string }.

(** An element of the listing: the issue attributes, and [pull_request]
    when the element is a pull request. *)
Record Item : Type := {
  item_issue : Issue;
  pull_request : option PullRequest
}.

(** The parameters merged into [octokit.issues.listForRepo.endpoint]. *)
Record ListRequest : Type := {
  req_owner : Prim;
  req_repo : Prim;
  per_page : nat;
  req_state : Prim
}.

(** [fetchGithubIssues], given the outcome of [octokit.paginate].  When
    that call rejects, the handler's own [spinner.fail] throws ([spinner]
    is bound nowhere), so the caller never sees a value. *)
Definition fetchGithubIssues (paginated : Result (list Item)) : Result (list Issue) :=
  match paginated with
  | Ok data =>
      Ok (List.map item_issue
            (List.filter
               (fun issue => negb (match pull_request issue with
                                   | Some _ => true
                                   | None => false
                                   end))
               data))
  | Thrown => Thrown
  end.

(** [getExistingAirtableIssueRows], given the pages [eachPage] hands to
    its callback, or the rejection of its promise. *)
Definition getExistingAirtableIssueRows (pages : Result (list (list Row)))
    : Result (list Row) :=
  bind pages (fun ps =>
    Ok (fold_left (fun allRecords records => (allRecords ++ records)%list) ps [])).

(** *** [githubAirtableImport] *)

(** How a run ends: at [process.exit(1)], with a rejected promise, or
    after the last [succeed] message with the two counts it prints. *)
Inductive Run : Type :=
| Exited
| Rejected
| Completed (numNewRows numUpdatedRows : nat).

Section Main.

Context {Record_ : Type}.
Variable paginate : ListRequest -> Result (list Item).
Variable eachPage : Result (list (list Row)).
Variable create : list (list (string * Prim)) -> Result (list Record_).
Variable update : list Update -> Result (list Record_).

Definition listRequest (options : Cli.Options) (githubUrl : string) : ListRequest :=
  {| req_owner := fst (ownerRepo githubUrl);
     req_repo := snd (ownerRepo githubUrl);
     per_page := 100;
     req_state := Cli.optionValue (Cli.state options) |}.

Definition githubAirtableImport (options : Cli.Options) : Run :=
  match snd (Cli.validateOptions options) with
  | Cli.Exits => Exited
  | Cli.Throws => Rejected
  | Cli.Returns =>
      match Cli.githubUrl options with
      | None => Rejected
      | Some url =>
          match fetchGithubIssues (paginate (listRequest options url)) with
          | Thrown => Rejected
          | Ok issues =>
              match getExistingAirtableIssueRows eachPage with
              | Thrown => Rejected
              | Ok existingRows =>
                  (* destructuring [undefined] throws *)
                  match importIssuesToAirtable create update issues existingRows with
                  | Some (numNewRows, numUpdatedRows) =>
                      Completed numNewRows numUpdatedRows
                  | None => Rejected
                  end
              end
          end
      end
  end.

End Main.

(** *** [githubAirtableImport] of [src/ghair.js] *)

Module GhairMain.

(** How a run of the insert-only importer ends.  The count it prints is
    [undefined] when the write was caught. *)
Inductive Run : Type :=
| Exited
| Rejected
| Completed (issuesImported : option nat).

Section Main.

Context {Record_ : Type}.
Variable paginate : ListRequest -> Result (list Item).
Variable create : list (list (string * Prim)) -> Result (list Record_).

Definition githubAirtableImport (options : Cli.Options) : Run :=
  match snd (Cli.validateOptions options) with
  | Cli.Exits => Exited
  | Cli.Throws => Rejected
  | Cli.Returns =>
      match Cli.githubUrl options with
      | None => Rejected
      | Some url =>
          match fetchGithubIssues
                  (paginate {| req_owner := fst (ownerRepo url);
                               req_repo := snd (ownerRepo url);
                               per_page := 100;
                               req_state := Cli.optionValue (Cli.state options) |}) with
          | Thrown => Rejected
          | Ok issues => Completed (Ghair.importIssuesToAirtable create issues)
          end
      end
  end.

End Main.

End GhairMain.

(** *** More vocabulary *)

(** The service answers a call of at most ten rows with one record per
    row. *)
Definition oneRecordPerRow {A B} (call : list A -> Result (list B)) : Prop :=
  forall chunk, length chunk <= 10 ->
    exists written, call chunk = Ok written /\ length written = length chunk.

(** The calls for the chunks of [rows], made in order, all succeed, and
    their answers hold [n] records in all. *)
Definition answeredWith {A B} (call : list A -> Result (list B))
    (rows : list A) (n : nat) : Prop :=
  exists results,
    Forall2 (fun chunk written => call chunk = Ok written) (chunks rows) results
    /\ n = length (concat results).

(** The call for one of the chunks of [rows] is rejected. *)
Definition rejectedOn {A B} (call : list A -> Result (list B))
    (rows : list A) : Prop :=
  exists chunk, In chunk (chunks rows) /\ call chunk = Thrown.

(** A row that holds, under every projected key other than the
    timestamps, a non-array value equal to the projected one up to
    missing or empty. *)
Definition inSync (row : Row) (issue : Issue) : Prop :=
  forall key v, In (key, v) (omitTimestamps (fieldsFromIssue issue)) ->
    (forall elems, getField row key <> VArr elems)
    /\ normalizeEmpty (getField row key) = normalizeEmpty (VPrim v).

(** An option the command line supplied with a non-empty value. *)
Definition supplied (value : option string) : Prop :=
  exists s, value = Some s /\ s <> "".

(** The usage lines of the required options that are missing or empty,
    in the order of the checks. *)
Definition usageLines (options : Cli.Options) : list string :=
  let line (value : option string) (flag : string) :=
    if truthyPrim (Cli.optionValue value) then [] else [Cli.required flag] in
  (line (Cli.githubToken options) "--github-token"
   ++ line (Cli.airtableApiKey options) "--airtable-api-key"
   ++ line (Cli.airtableBase options) "--airtable-base"
   ++ line (Cli.airtableTable options) "--airtable-table"
   ++ line (Cli.githubUrl options) "--github-url")%list.

(** Sample options. *)
Definition sampleOptions (st : option string) : Cli.Options :=
  {| Cli.githubToken := Some "ghp_x"; Cli.airtableApiKey := Some "key_x";
     Cli.airtableBase := Some "appX"; Cli.airtableTable := Some "Issues";
     Cli.githubUrl := Some "everydotorg/github-airtable-importer";
     Cli.state := st |}.

(** * Theorems *)

(** ** Exceptions, [filter] and [map] *)

Lemma filterR_Ok_inv {A} (p : A -> Result bool) (l kept : list A) :
  filterR p l = Ok kept ->
  kept = List.filter (fun x => match p x with Ok true => true | _ => false end) l
  /\ Forall (fun x => exists b, p x = Ok b) l.
Proof.
  revert kept. induction l as [|x l IH]; intros kept H; simpl in *.
  - by inversion H.
  - destruct (p x) as [b|] eqn:Hp; simpl in H; [|discriminate].
    destruct (filterR p l) as [k|] eqn:Hf; simpl in H; [|discriminate].
    destruct (IH k eq_refl) as [-> Hall]. inversion H; subst; clear H.
    split; [by destruct b | constructor; eauto].
Qed.

Lemma filterR_total {A} (p : A -> Result bool) (l : list A) :
  Forall (fun x => exists b, p x = Ok b) l ->
  exists kept, filterR p l = Ok kept.
Proof.
  induction 1 as [|x l [b Hb] _ [k Hk]]; simpl; [by eexists|].
  rewrite Hb, Hk. simpl. by eexists.
Qed.

Lemma filterR_elem {A} (p : A -> Result bool) (l kept : list A) (x : A) :
  filterR p l = Ok kept -> (In x kept <-> In x l /\ p x = Ok true).
Proof.
  intros H. destruct (filterR_Ok_inv _ _ _ H) as [-> _].
  rewrite filter_In. split; intros [Hx Hp]; split; auto.
  - destruct (p x) as [[]|]; done.
  - by rewrite Hp.
Qed.

Lemma mapR_Ok_inv {A B} (f : A -> Result B) (l : list A) (ys : list B) :
  mapR f l = Ok ys -> Forall2 (fun x y => f x = Ok y) l ys.
Proof.
  revert ys. induction l as [|x l IH]; intros ys H; simpl in *.
  - inversion H. constructor.
  - destruct (f x) as [y|] eqn:Hy; simpl in H; [|discriminate].
    destruct (mapR f l) as [k|] eqn:Hm; simpl in H; [|discriminate].
    inversion H; subst. constructor; auto.
Qed.

Lemma mapR_total {A B} (f : A -> Result B) (g : A -> B) (l : list A) :
  Forall (fun x => f x = Ok (g x)) l -> mapR f l = Ok (List.map g l).
Proof.
  induction 1 as [|x l Hx _ IH]; simpl; [done|]. by rewrite Hx, IH.
Qed.

(** ** [Object.fromEntries] *)

Lemma fromEntries_snoc entries k row :
  fromEntries (entries ++ [(k, row)]) = <[toString k := row]> (fromEntries entries).
Proof. unfold fromEntries. by rewrite fold_left_app. Qed.

Lemma fromEntries_is_Some entries key :
  is_Some (fromEntries entries !! key)
  <-> exists kv, In kv entries /\ toString (fst kv) = key.
Proof.
  induction entries as [|[k row] entries IH] using rev_ind.
  - unfold fromEntries; simpl. rewrite lookup_empty. split.
    + by intros [? ?].
    + by intros (? & [] & _).
  - rewrite fromEntries_snoc. destruct (decide (toString k = key)) as [<-|Hne].
    + rewrite lookup_insert_eq. split; [|by eauto].
      intros _. exists (k, row). split; [apply in_or_app; right; by left | done].
    + rewrite lookup_insert_ne by done. rewrite IH. split.
      * intros (kv & Hin & Hk). exists kv. split; [apply in_or_app; by left | done].
      * intros (kv & Hin & Hk). apply in_app_or in Hin as [Hin|[<-|[]]]; [by eauto|done].
Qed.

Lemma fromEntries_last_wins before k row after :
  Forall (fun kv => toString (fst kv) <> toString k) after ->
  fromEntries (before ++ (k, row) :: after) !! toString k = Some row.
Proof.
  induction after as [|[k' row'] after IH] using rev_ind; intros Hall.
  - rewrite fromEntries_snoc. apply lookup_insert_eq.
  - apply Forall_app in Hall as [Hall Hlast].
    replace (before ++ (k, row) :: after ++ [(k', row')])%list
      with ((before ++ (k, row) :: after) ++ [(k', row')])%list
      by (rewrite <- app_assoc; reflexivity).
    rewrite fromEntries_snoc.
    inversion Hlast; subst. simpl in *.
    rewrite lookup_insert_ne by done. by apply IH.
Qed.

Lemma fromEntries_Some_In entries key row :
  fromEntries entries !! key = Some row ->
  exists k, In (k, row) entries /\ toString k = key.
Proof.
  induction entries as [|[k r] entries IH] using rev_ind.
  - unfold fromEntries; simpl. by rewrite lookup_empty.
  - rewrite fromEntries_snoc. destruct (decide (toString k = key)) as [<-|Hne].
    + rewrite lookup_insert_eq. intros [= ->]. exists k.
      split; [apply in_or_app; right; by left | done].
    + rewrite lookup_insert_ne by done. intros H.
      destruct (IH H) as (k0 & Hin & Hk). exists k0.
      split; [apply in_or_app; by left | done].
Qed.

(** ** The join map *)

(** Distinct numbers have distinct string forms, so numeric keys never
    collide. *)
Lemma numberToString_inj (a b : Z) :
  numberToString a = numberToString b -> a = b.
Proof.
  unfold numberToString. intros H.
  assert (Hnn : forall n, Z.to_int n <> Decimal.Pos Decimal.Nil
                          /\ Z.to_int n <> Decimal.Neg Decimal.Nil).
  { intros [|p|p]; simpl; split; try discriminate;
      intros [= Hp]; by apply (DecimalPos.Unsigned.to_uint_nonnil p). }
  assert (Hi : Z.to_int a = Z.to_int b).
  { destruct (Hnn a), (Hnn b).
    assert (Some (Z.to_int a) = Some (Z.to_int b)) as [= ->]; [|done].
    rewrite <- (NilZero.isi (Z.to_int a)), <- (NilZero.isi (Z.to_int b)) by done.
    by rewrite H. }
  rewrite <- (DecimalZ.of_to a), <- (DecimalZ.of_to b). by rewrite Hi.
Qed.

Lemma existingRowFor_Some_In (existingRows : list Row) (n : Z) (row : Row) :
  existingRowFor (issueNumbersToExistingRows existingRows) n = Some row ->
  In row existingRows
  /\ toString (getField row "Issue Number") = numberToString n.
Proof.
  unfold existingRowFor, issueNumbersToExistingRows. intros H.
  apply fromEntries_Some_In in H as (k & Hin & Hk).
  apply in_map_iff in Hin as (r & [= <- <-] & Hr). done.
Qed.

Lemma existingRowFor_is_Some (existingRows : list Row) (n : Z) :
  is_Some (existingRowFor (issueNumbersToExistingRows existingRows) n)
  <-> exists row, In row existingRows
        /\ toString (getField row "Issue Number") = numberToString n.
Proof.
  unfold existingRowFor, issueNumbersToExistingRows.
  rewrite fromEntries_is_Some. split.
  - intros ([k r] & Hin & Hk). apply in_map_iff in Hin as (r' & [= <- <-] & Hr).
    by exists r'.
  - intros (row & Hin & Hk). exists (getField row "Issue Number", row).
    split; [|done]. apply in_map_iff. by exists row.
Qed.

Lemma hasExistingRow_true (m : gmap string Row) (i : Issue) :
  hasExistingRow m i = true <-> is_Some (existingRowFor m (number i)).
Proof.
  unfold hasExistingRow. by destruct (existingRowFor m (number i)).
Qed.

Lemma hasExistingRow_false (m : gmap string Row) (i : Issue) :
  hasExistingRow m i = false <-> existingRowFor m (number i) = None.
Proof. unfold hasExistingRow. by destruct (existingRowFor m (number i)). Qed.

Lemma toInsert_In (issues : list Issue) (existingRows : list Row) (i : Issue) :
  In i (toInsert issues existingRows)
  <-> In i issues
      /\ existingRowFor (issueNumbersToExistingRows existingRows) (number i) = None.
Proof.
  unfold toInsert. rewrite filter_In, negb_true_iff, hasExistingRow_false. done.
Qed.

Lemma existingIssues_In (issues : list Issue) (existingRows : list Row) (i : Issue) :
  In i (existingIssues issues existingRows)
  <-> In i issues
      /\ is_Some (existingRowFor (issueNumbersToExistingRows existingRows) (number i)).
Proof. unfold existingIssues. by rewrite filter_In, hasExistingRow_true. Qed.

(** C10.  Matching goes through the string form of the join key: an issue
    has a row exactly when some supplied row's stored issue-number field
    has the same [ToString] as the issue's number; that decides on which
    side of the split the issue falls; and a row storing the string "5"
    is a match for issue number 5, as is one storing the number 5. *)
Theorem join_key_is_string_form
    (issues : list Issue) (existingRows : list Row) (i : Issue) :
  let m := issueNumbersToExistingRows existingRows in
  let matches row :=
    toString (getField row "Issue Number") = toString (VPrim (Num (number i))) in
  (hasExistingRow m i = true <-> exists row, In row existingRows /\ matches row)
  /\ (In i (existingIssues issues existingRows)
      <-> In i issues /\ exists row, In row existingRows /\ matches row)
  /\ (In i (toInsert issues existingRows)
      <-> In i issues /\ ~ exists row, In row existingRows /\ matches row)
  /\ (forall row, In row existingRows -> number i = 5%Z ->
        getField row "Issue Number" = VPrim (Str "5")
        \/ getField row "Issue Number" = VPrim (Num 5) ->
        hasExistingRow m i = true).
Proof.
  intros m matches. subst m matches. simpl.
  assert (Hm : hasExistingRow (issueNumbersToExistingRows existingRows) i = true
               <-> exists row, In row existingRows
                     /\ toString (getField row "Issue Number") = numberToString (number i)).
  { by rewrite hasExistingRow_true, existingRowFor_is_Some. }
  split; [done|]. split; [|split].
  - by rewrite existingIssues_In, <- hasExistingRow_true, Hm.
  - rewrite toInsert_In, <- hasExistingRow_false, <- Hm.
    destruct (hasExistingRow _ i); intuition congruence.
  - intros row Hin Hn Hf. apply Hm. exists row. split; [done|].
    rewrite Hn. by destruct Hf as [-> | ->].
Qed.

(** ** Update records *)

Lemma rowsToUpdate_inv (m : gmap string Row) (l : list Issue) (us : list Update) (u : Update) :
  rowsToUpdate m l = Ok us -> In u us ->
  exists i, In i l /\ needsUpdate m i = Ok true /\ toUpdateRecord m i = Ok u.
Proof.
  unfold rowsToUpdate, issuesToUpdate. intros H Hu.
  destruct (filterR (needsUpdate m) l) as [kept|] eqn:Hf; simpl in H; [|discriminate].
  apply mapR_Ok_inv in H.
  assert (exists i, In i kept /\ toUpdateRecord m i = Ok u) as (i & Hi & Hr).
  { clear Hf. induction H as [|x y xs ys Hxy _ IH]; [done|].
    destruct Hu as [<-|Hu].
    - exists x. split; [by left | done].
    - destruct (IH Hu) as (i & ? & ?). exists i. split; [by right | done]. }
  apply (filterR_elem _ _ _ i Hf) in Hi as [Hi Hp]. by exists i.
Qed.

(** C6.  When several supplied rows carry the same issue number, the map
    holds the one supplied last, the diff of a matched issue is taken
    against that row, and the update written for the issue carries that
    row's identifier. *)
Theorem last_duplicate_row_wins
    (before after : list Row) (row : Row) (n : Z) :
  toString (getField row "Issue Number") = numberToString n ->
  Forall (fun r => toString (getField r "Issue Number") <> numberToString n) after ->
  let existingRows := (before ++ row :: after)%list in
  let m := issueNumbersToExistingRows existingRows in
  existingRowFor m n = Some row
  /\ (forall issue, number issue = n ->
        needsUpdate m issue = forIn row (omitTimestamps (fieldsFromIssue issue))
        /\ toUpdateRecord m issue
           = Ok {| update_id := id row; update_fields := fieldsFromIssue issue |})
  /\ (forall issues us u,
        toUpdate issues existingRows = Ok us -> In u us ->
        prop (update_fields u) "Issue Number" = Some (Num n) ->
        update_id u = id row).
Proof.
  intros Hkey Hafter existingRows m.
  assert (Hrow : existingRowFor m n = Some row).
  { subst m existingRows. unfold existingRowFor, issueNumbersToExistingRows.
    rewrite map_app. simpl. rewrite <- Hkey.
    apply (fromEntries_last_wins _ (getField row "Issue Number")).
    rewrite Forall_map. simpl. rewrite Hkey.
    eapply Forall_impl; [exact Hafter | done]. }
  split; [done|]. split.
  - intros issue <-. unfold needsUpdate, toUpdateRecord. by rewrite Hrow.
  - intros issues us u Hus Hu Hnum.
    destruct (rowsToUpdate_inv _ _ _ _ Hus Hu) as (i & _ & _ & Hrec).
    unfold toUpdateRecord in Hrec. fold m in Hrec.
    destruct (existingRowFor m (number i)) as [r|] eqn:Hr; [|discriminate].
    inversion Hrec; subst u; clear Hrec. simpl in *.
    injection Hnum as Hnum. rewrite Hnum in Hr. congruence.
Qed.

Lemma last_duplicate_row_wins_witness :
  existingRowFor (issueNumbersToExistingRows [dupOld; dupNew; other8]) 7 = Some dupNew.
Proof.
  refine (proj1 (last_duplicate_row_wins [dupOld] [other8] dupNew 7 _ _)).
  - reflexivity.
  - repeat constructor. vm_compute. discriminate.
Defined.

(** C5.  Against an empty destination every issue is to be inserted and
    none is to be updated. *)
Theorem empty_destination_inserts_everything (issues : list Issue) :
  toInsert issues [] = issues
  /\ existingIssues issues [] = []
  /\ toUpdateIssues issues [] = Ok []
  /\ toUpdate issues [] = Ok [].
Proof.
  assert (Hno : forall i, hasExistingRow (issueNumbersToExistingRows []) i = false).
  { intros i. apply hasExistingRow_false. unfold existingRowFor. apply lookup_empty. }
  assert (Hex : existingIssues issues [] = []).
  { unfold existingIssues. induction issues as [|i l IH]; simpl; [done|].
    by rewrite Hno. }
  split; [|split; [done|]].
  - unfold toInsert. induction issues as [|i l IH]; simpl; [done|].
    rewrite Hno. simpl. f_equal. apply IH.
    unfold existingIssues in *. simpl in Hex. by rewrite Hno in Hex.
  - unfold toUpdateIssues, toUpdate, rowsToUpdate, issuesToUpdate. by rewrite Hex.
Qed.

(** ** The per-field comparison *)

Lemma strictEq_true (a b : Value) :
  strictEq a b = true <-> exists p, a = VPrim p /\ b = VPrim p.
Proof.
  destruct a as [p| |], b as [q| |]; simpl; split;
    try discriminate; try (by intros (? & ? & ?)).
  - intros H. apply bool_decide_eq_true in H as ->. by eauto.
  - intros (r & [= ->] & [= ->]). by apply bool_decide_eq_true.
Qed.

Lemma normalizeEmpty_truthy (v : Value) :
  normalizeEmpty v = if truthy v then Some v else None.
Proof.
  destruct v as [[| |[]|n|s]| |]; simpl; try done.
  - destruct (Z.eq_dec n 0%Z) as [->|Hn]; [done|].
    by apply Z.eqb_neq in Hn as ->.
  - destruct (string_dec s "") as [->|Hs]; [done|].
    by apply String.eqb_neq in Hs as ->.
Qed.

Lemma orUndefined_eq_iff (a : Value) (q : Prim) :
  strictEq (orUndefined a) (orUndefined (VPrim q)) = true
  <-> normalizeEmpty a = normalizeEmpty (VPrim q).
Proof.
  rewrite !normalizeEmpty_truthy. unfold orUndefined.
  destruct a as [p| |]; simpl.
  - destruct (truthyPrim p) eqn:Hp, (truthyPrim q) eqn:Hq;
      unfold strictEq; rewrite bool_decide_eq_true; split;
      try done; try congruence.
    + by intros ->.
    + by intros <-.
  - destruct (truthyPrim q); split; done.
  - destruct (truthyPrim q); split; done.
Qed.

Lemma compareField_scalar (existingField : Value) (newField : Prim) :
  (forall elems, existingField <> VArr elems) ->
  compareField existingField newField
  = if strictEq (orUndefined existingField) (orUndefined (VPrim newField))
    then Continue else Return true.
Proof.
  intros Hna. unfold compareField.
  destruct existingField as [p|elems|]; [|by destruct (Hna elems)|];
    by destruct (strictEq _ _).
Qed.

(** C7.  A field whose stored value is not an array is flagged exactly
    when the stored and the projected value differ once every missing or
    empty value has been replaced by one absent value, and is passed over
    exactly when they then agree; so an empty string and an absent field
    agree, whichever side each is on. *)
Theorem empty_normalised_field_rule (existingField : Value) (newField : Prim) :
  (forall elems, existingField <> VArr elems) ->
  (compareField existingField newField = Return true
   <-> normalizeEmpty existingField <> normalizeEmpty (VPrim newField))
  /\ (compareField existingField newField = Continue
      <-> normalizeEmpty existingField = normalizeEmpty (VPrim newField))
  /\ compareField (VPrim (Str "")) Undefined = Continue
  /\ (forall row key, fields row !! key = None ->
        compareField (getField row key) (Str "") = Continue).
Proof.
  intros Hna. rewrite (compareField_scalar _ _ Hna).
  rewrite <- orUndefined_eq_iff.
  destruct (strictEq _ _); repeat split; try done.
  all: intros row key Hk; unfold getField; by rewrite Hk.
Qed.

Lemma empty_normalised_field_rule_witness :
  compareField (VPrim (Num 0)) Null = Continue
  /\ compareField (VPrim (Str "open")) (Str "closed") = Return true.
Proof.
  assert (H0 : forall elems, VPrim (Num 0) <> VArr elems) by discriminate.
  assert (H1 : forall elems, VPrim (Str "open") <> VArr elems) by discriminate.
  split.
  - apply (proj1 (proj2 (empty_normalised_field_rule (VPrim (Num 0)) Null H0))).
    reflexivity.
  - apply (proj1 (empty_normalised_field_rule (VPrim (Str "open")) (Str "closed") H1)).
    vm_compute. discriminate.
Defined.

(** ** The loop over the projected fields *)

Lemma omitTimestamps_fieldsFromIssue (issue : Issue) :
  omitTimestamps (fieldsFromIssue issue)
  = ([ ("Issue Number", Num (number issue));
       ("Name", Str (title issue));
       ("Description", match body issue with Some b => Str b | None => Null end);
       ("Github URL", Str (html_url issue));
       ("Labels", Str (labelsString issue));
       ("Status", Str (state issue)) ]
     ++ match assignee issue with
        | Some a => [ ("Assigned to", Str ("@" ++ login a)) ]
        | None => []
        end)%list.
Proof.
  unfold omitTimestamps, fieldsFromIssue. rewrite List.filter_app. simpl.
  by destruct (assignee issue).
Qed.

Lemma omitTimestamps_In (fs : list (string * Prim)) (key : string) (v : Prim) :
  In (key, v) (omitTimestamps fs)
  <-> In (key, v) fs /\ key <> "Created At" /\ key <> "Updated At".
Proof.
  unfold omitTimestamps. rewrite filter_In. simpl.
  rewrite andb_true_iff, !negb_true_iff, !String.eqb_neq. done.
Qed.


(** On a row that stores no array under the projected keys the callback
    completes and answers [true] exactly when some field is flagged. *)
Lemma forIn_scalars (existingRow : Row) (fs : list (string * Prim)) :
  (forall kv elems, In kv fs -> getField existingRow (fst kv) <> VArr elems) ->
  exists b, forIn existingRow fs = Ok b
            /\ (b = true <-> exists kv, In kv fs /\ fieldDiffers existingRow kv).
Proof.
  induction fs as [|[key v] fs IH]; intros Hna; simpl.
  - exists false. split; [done|]. split; [done|]. by intros (? & [] & _).
  - rewrite compareField_scalar by (intros elems; by apply (Hna (key, v)); left).
    destruct (strictEq _ _) eqn:Hs.
    + destruct IH as (b & Hb & Hiff); [intros kv elems Hin; apply Hna; by right|].
      exists b. split; [done|]. rewrite Hiff. split.
      * intros (kv & Hin & Hd). exists kv. by split; [right|].
      * intros (kv & [<-|Hin] & Hd); [|by eauto].
        unfold fieldDiffers in Hd. simpl in Hd.
        rewrite compareField_scalar in Hd
          by (intros elems; by apply (Hna (key, v)); left).
        by rewrite Hs in Hd.
    + exists true. split; [done|]. split; [|done]. intros _.
      exists (key, v). split; [by left|]. unfold fieldDiffers. simpl.
      rewrite compareField_scalar by (intros elems; by apply (Hna (key, v)); left).
      by rewrite Hs.
Qed.

Lemma compareField_comparable (existingField : Value) (s : string) :
  compareField existingField (Str s) <> Throw.
Proof.
  unfold compareField, compareArray. destruct existingField as [p|elems|].
  - by destruct (negb _).
  - by repeat (match goal with |- context [if ?c then _ else _] => destruct c end).
  - by destruct (negb _).
Qed.

Lemma forIn_total (existingRow : Row) (fs : list (string * Prim)) :
  (forall key v elems, In (key, v) fs ->
     getField existingRow key = VArr elems -> exists s, v = Str s) ->
  exists b, forIn existingRow fs = Ok b.
Proof.
  induction fs as [|[key v] fs IH]; intros Hc; simpl; [by eexists|].
  destruct (compareField (getField existingRow key) v) as [|b|] eqn:Hcf.
  - apply IH. intros k w elems Hin. apply Hc. by right.
  - by eexists.
  - exfalso. destruct (getField existingRow key) as [p|elems|] eqn:Hg.
    + unfold compareField in Hcf. by destruct (negb _).
    + destruct (Hc key v elems) as [s ->]; [by left|done|].
      by apply compareField_comparable in Hcf.
    + unfold compareField in Hcf. by destruct (negb _).
Qed.

Lemma forIn_identical (existingRow : Row) (fs : list (string * Prim)) :
  (forall key v, In (key, v) fs -> getField existingRow key = VPrim v) ->
  forIn existingRow fs = Ok false.
Proof.
  induction fs as [|[key v] fs IH]; intros Hid; simpl; [done|].
  rewrite (Hid key v) by (by left).
  rewrite compareField_scalar by done.
  replace (strictEq _ _) with true.
  - apply IH. intros k w Hin. apply Hid. by right.
  - symmetry. by apply orUndefined_eq_iff.
Qed.

Lemma forIn_agree (row row' : Row) (fs : list (string * Prim)) :
  (forall key v, In (key, v) fs -> getField row key = getField row' key) ->
  forIn row fs = forIn row' fs.
Proof.
  induction fs as [|[key v] fs IH]; intros Hag; simpl; [done|].
  rewrite (Hag key v) by (by left). rewrite IH; [done|].
  intros k w Hin. apply (Hag k w). by right.
Qed.

(** The callback reads neither the timestamps of the issue nor the
    timestamps stored in the row. *)
Lemma needsUpdate_ignores_timestamps (m m' : gmap string Row)
    (issue issue' : Issue) (row row' : Row) :
  existingRowFor m (number issue) = Some row ->
  existingRowFor m' (number issue') = Some row' ->
  (forall key, key <> "Created At" -> key <> "Updated At" ->
     getField row key = getField row' key) ->
  title issue = title issue' -> body issue = body issue' ->
  html_url issue = html_url issue' -> number issue = number issue' ->
  labels issue = labels issue' -> assignee issue = assignee issue' ->
  state issue = state issue' ->
  needsUpdate m issue = needsUpdate m' issue'.
Proof.
  intros Hrow Hrow' Hag Ht Hb Hu Hn Hl Ha Hs. unfold needsUpdate.
  rewrite Hrow, Hrow'.
  assert (Hfs : omitTimestamps (fieldsFromIssue issue)
                = omitTimestamps (fieldsFromIssue issue')).
  { rewrite !omitTimestamps_fieldsFromIssue. unfold labelsString.
    by rewrite Ht, Hb, Hu, Hn, Hl, Ha, Hs. }
  rewrite Hfs. apply forIn_agree. intros key v Hin.
  apply omitTimestamps_In in Hin as (_ & Hc & Hu'). by apply Hag.
Qed.

(** C3.  When every projected field other than the two timestamps is
    identical to the stored one, the issue is not flagged and is not
    among the issues to update, whatever the four timestamps are. *)
Theorem timestamps_never_trigger
    (issues : list Issue) (existingRows : list Row) (issue : Issue) (row : Row) :
  let m := issueNumbersToExistingRows existingRows in
  existingRowFor m (number issue) = Some row ->
  (forall key v, In (key, v) (fieldsFromIssue issue) ->
     key <> "Created At" -> key <> "Updated At" ->
     getField row key = VPrim v) ->
  needsUpdate m issue = Ok false
  /\ (forall upd, toUpdateIssues issues existingRows = Ok upd -> ~ In issue upd).
Proof.
  intros m Hrow Hid.
  assert (Hno : needsUpdate m issue = Ok false).
  { unfold needsUpdate. rewrite Hrow. apply forIn_identical.
    intros key v Hin. apply omitTimestamps_In in Hin as (Hin & Hc & Hu).
    by apply Hid. }
  split; [done|]. intros upd Hupd Hin.
  apply (filterR_elem _ _ _ issue Hupd) in Hin as [_ Hin].
  fold m in Hin. congruence.
Qed.

Lemma timestamps_never_trigger_witness :
  needsUpdate
    (issueNumbersToExistingRows
       [sampleRow "rec5" (storedIssue5 (VPrim (Str "bug,ui")) "open")])
    (sampleIssue 5 "open" ["bug"; "ui"] None) = Ok false.
Proof.
  refine (proj1 (timestamps_never_trigger
                   [sampleIssue 5 "open" ["bug"; "ui"] None]
                   [sampleRow "rec5" (storedIssue5 (VPrim (Str "bug,ui")) "open")]
                   (sampleIssue 5 "open" ["bug"; "ui"] None)
                   (sampleRow "rec5" (storedIssue5 (VPrim (Str "bug,ui")) "open"))
                   _ _)).
  - reflexivity.
  - intros key v Hin Hc Hu. simpl in Hin.
    repeat (destruct Hin as [[= <- <-]|Hin]; [try done; reflexivity|]).
    destruct Hin.
Defined.

(** ** The array rule *)

Lemma setHas_true (existingArrValues : list Value) (value : string) :
  setHas existingArrValues value = true
  <-> In (VPrim (Str value)) existingArrValues.
Proof.
  unfold setHas. rewrite existsb_exists. split.
  - intros (v & Hin & Heq). apply strictEq_true in Heq as (p & -> & [= <-]). done.
  - intros Hin. exists (VPrim (Str value)). split; [done|].
    apply strictEq_true. by eauto.
Qed.

Lemma someValueMissing_true (existingArrValues : list Value) (newArrValues : list string) :
  someValueMissing existingArrValues newArrValues = true
  <-> exists t, In t newArrValues /\ ~ In (VPrim (Str t)) existingArrValues.
Proof.
  induction newArrValues as [|t rest IH]; simpl.
  - split; [done|]. by intros (? & [] & _).
  - destruct (setHas existingArrValues t) eqn:Hh; simpl.
    + rewrite IH. apply setHas_true in Hh. split.
      * intros (u & Hin & Hu). exists u. by split; [right|].
      * intros (u & [<-|Hin] & Hu); [done|by eauto].
    + split; [|done]. intros _. exists t. split; [by left|].
      rewrite <- setHas_true. by rewrite Hh.
Qed.

(** What the array branch hands back for a string: [true] exactly under
    one of the three conditions (a), (b), (c). *)
Lemma compareArray_Str (elems : list Value) (s : string) :
  exists b, compareArray elems (Str s) = Ok b
    /\ (b = true <->
        (0 < length (storedEntries elems) /\ parsedTokens s = [])
        \/ length (storedEntries elems) <> length (parsedTokens s)
        \/ exists t, In t (parsedTokens s)
                     /\ ~ In (VPrim (Str t)) (storedEntries elems)).
Proof.
  unfold compareArray. fold (storedEntries elems). fold (parsedTokens s).
  destruct ((0 <? length (storedEntries elems))%nat && negb (truthyPrim (Str s)))
    eqn:Ha.
  - exists true. split; [done|]. split; [|done]. intros _. left.
    apply andb_true_iff in Ha as [Hl He]. apply Nat.ltb_lt in Hl.
    split; [done|]. simpl in He. apply negb_true_iff, negb_false_iff in He.
    apply String.eqb_eq in He as ->. reflexivity.
  - destruct (length (storedEntries elems) =? length (parsedTokens s))%nat eqn:Hb;
      simpl.
    + apply Nat.eqb_eq in Hb.
      destruct (someValueMissing (storedEntries elems) (parsedTokens s)) eqn:Hc.
      * exists true. split; [done|]. split; [|done]. intros _. right. right.
        by apply someValueMissing_true.
      * exists false. split; [done|]. split; [done|].
        intros [[Hl He]|[Hne|Hmiss]].
        -- rewrite He in Hb. simpl in Hb. lia.
        -- done.
        -- apply someValueMissing_true in Hmiss. congruence.
    + apply Nat.eqb_neq in Hb. exists true. split; [done|]. split; [|done].
      intros _. right. by left.
Qed.

Lemma storedEntries_Permutation (elems elems' : list Value) :
  Permutation elems elems' ->
  Permutation (storedEntries elems) (storedEntries elems').
Proof.
  unfold storedEntries. induction 1; simpl.
  - constructor.
  - destruct (truthy x); [by constructor|done].
  - destruct (truthy x), (truthy y); try done. apply perm_swap.
  - by etrans.
Qed.

(** C2, as the code has it.  For a row that stores Labels as an array
    the comparison always ends the callback; it reports a difference
    exactly when (a) a non-empty entry is stored and none is parsed, or
    (b) the numbers of stored entries and of parsed tokens differ, or (c)
    a parsed token is not stored.  Stored entries and parsed tokens that
    are equal as sets and equal in number, as they are when neither side
    repeats an entry, make no difference, and the order of the stored
    entries plays no part. *)
Theorem labels_array_rule (issue : Issue) (row : Row) (elems : list Value) :
  getField row "Labels" = VArr elems ->
  let stored := storedEntries elems in
  let tokens := parsedTokens (labelsString issue) in
  let outcome := compareField (getField row "Labels") (Str (labelsString issue)) in
  let sameSet := forall v, In v stored <-> exists t, In t tokens /\ v = VPrim (Str t) in
  (outcome = Return true \/ outcome = Return false)
  /\ (outcome = Return true <->
        (0 < length stored /\ tokens = [])
        \/ length stored <> length tokens
        \/ exists t, In t tokens /\ ~ In (VPrim (Str t)) stored)
  /\ (sameSet -> length stored = length tokens -> outcome = Return false)
  /\ (sameSet -> List.NoDup stored -> List.NoDup tokens -> outcome = Return false)
  /\ (forall elems', Permutation elems elems' ->
        compareField (VArr elems') (Str (labelsString issue)) = outcome).
Proof.
  intros Hrow stored tokens outcome sameSet.
  subst outcome. rewrite Hrow. unfold compareField.
  destruct (compareArray_Str elems (labelsString issue)) as (b & Hb & Hiff).
  fold stored tokens in Hiff. rewrite Hb.
  assert (Heq : sameSet -> length stored = length tokens -> Return b = Return false).
  { intros Hset Hlen. destruct b; [|done]. exfalso.
    destruct (proj1 Hiff eq_refl) as [[Hl He]|[Hne|(t & Ht & Hmiss)]].
    - rewrite He in Hlen. simpl in Hlen. lia.
    - done.
    - apply Hmiss, Hset. by eauto. }
  split; [by destruct b; [left|right]|].
  split; [|split; [done|split]].
  - rewrite <- Hiff. split; [by intros [= ->]|by intros ->].
  - intros Hset Hnd Hnt. apply Heq; [done|].
    rewrite <- (length_map (fun t => VPrim (Str t)) tokens).
    apply Permutation_length, Stdlib.Sorting.Permutation.NoDup_Permutation;
      [done| |].
    + apply Stdlib.Lists.Finite.Injective_map_NoDup; [|done]. by intros x y [= ->].
    + intros v. rewrite (Hset v), in_map_iff. split.
      * intros (t & Ht & ->). by exists t.
      * intros (t & <- & Ht). by exists t.
  - intros elems' Hperm.
    destruct (compareArray_Str elems' (labelsString issue)) as (b' & Hb' & Hiff').
    rewrite Hb'. f_equal.
    pose proof (storedEntries_Permutation _ _ Hperm) as Hp.
    fold stored in Hp. fold tokens in Hiff'.
    assert (Hlen : length (storedEntries elems') = length stored)
      by (symmetry; by apply Permutation_length).
    assert (Hin : forall v, In v (storedEntries elems') <-> In v stored).
    { intros v. split; apply Permutation_in; [by symmetry|done]. }
    rewrite Hlen in Hiff'.
    assert (b' = true <-> b = true) as Hbb.
    { rewrite Hiff, Hiff'. repeat apply or_iff_compat_l || apply or_iff_compat_r.
      split; intros (t & Ht & Hm); exists t; (split; [done|]); by rewrite ?Hin in *. }
    destruct b, b'; try done; intuition congruence.
Qed.

Lemma labels_array_rule_witness :
  compareField (VArr [VPrim (Str "bug"); VPrim (Str "ui")])
    (Str (labelsString (sampleIssue 5 "open" ["ui"; "bug"] None)))
  = Return false.
Proof.
  pose proof (labels_array_rule (sampleIssue 5 "open" ["ui"; "bug"] None)
                (sampleRow "rec5" (storedIssue5 (VArr [VPrim (Str "bug"); VPrim (Str "ui")]) "open"))
                [VPrim (Str "bug"); VPrim (Str "ui")] eq_refl) as H.
  simpl in H. destruct H as (_ & _ & H & _). apply H; [|reflexivity].
  intros v. vm_compute. split.
  - intros [<-|[<-|[]]]; [exists "bug" | exists "ui"]; auto.
  - intros (t & [<-|[<-|[]]] & ->); auto.
Defined.

(** C2, as written, fails when an entry is repeated: the stored entries
    ["bug"; "bug"] and the single parsed token "bug" are equal as sets,
    yet the comparison reports a difference. *)
Lemma labels_same_set_yet_differ :
  let elems := [VPrim (Str "bug"); VPrim (Str "bug")] in
  let issue := sampleIssue 5 "open" ["bug"] None in
  let row := sampleRow "rec5" (storedIssue5 (VArr elems) "open") in
  getField row "Labels" = VArr elems
  /\ (forall v, In v (storedEntries elems)
                <-> exists t, In t (parsedTokens (labelsString issue))
                              /\ v = VPrim (Str t))
  /\ compareField (getField row "Labels") (Str (labelsString issue)) = Return true.
Proof.
  split; [reflexivity|]. split; [|reflexivity].
  intros v. vm_compute. split.
  - intros [<-|[<-|[]]]; exists "bug"; auto.
  - intros (t & [<-|[]] & ->); auto.
Qed.

(** ** The early [return false] of the array branch *)

Lemma forIn_app_Continue (existingRow : Row) (before rest : list (string * Prim)) :
  (forall kv, In kv before ->
     compareField (getField existingRow (fst kv)) (snd kv) = Continue) ->
  forIn existingRow (before ++ rest) = forIn existingRow rest.
Proof.
  induction before as [|[key v] before IH]; intros Hc; simpl; [done|].
  pose proof (Hc (key, v) (or_introl eq_refl)) as Hkv. simpl in Hkv.
  rewrite Hkv. apply IH. intros kv Hin. apply Hc. by right.
Qed.

(** Once the loop meets a key under which the row stores an array, the
    callback returns what the array rule says: the keys after it are not
    looked at. *)
Lemma forIn_stops_at_array (existingRow : Row) (before after : list (string * Prim))
    (key : string) (v : Prim) (elems : list Value) :
  (forall kv, In kv before ->
     compareField (getField existingRow (fst kv)) (snd kv) = Continue) ->
  getField existingRow key = VArr elems ->
  forIn existingRow (before ++ (key, v) :: after) = compareArray elems v.
Proof.
  intros Hc Harr. rewrite forIn_app_Continue by done. simpl.
  rewrite Harr. simpl. by destruct (compareArray elems v).
Qed.

(** C1, at the input where the code departs from it.  Issue 5 was
    imported open with labels bug and ui into a table whose Labels column
    is a multiple select, and has since been closed.  The Status field is
    a projected non-timestamp field and differs under the rule for
    non-array fields, yet the callback answers [false], and the issue is
    neither updated nor inserted: the array branch returned before the
    loop reached Status. *)
Theorem labels_array_hides_status_change :
  let issue := sampleIssue 5 "closed" ["bug"; "ui"] None in
  let row := sampleRow "rec5"
               (storedIssue5 (VArr [VPrim (Str "bug"); VPrim (Str "ui")]) "open") in
  let m := issueNumbersToExistingRows [row] in
  existingRowFor m (number issue) = Some row
  /\ In ("Status", Str "closed") (omitTimestamps (fieldsFromIssue issue))
  /\ fieldDiffers row ("Status", Str "closed")
  /\ projectionDiffers row issue
  /\ needsUpdate m issue = Ok false
  /\ toUpdate [issue] [row] = Ok []
  /\ toInsert [issue] [row] = [].
Proof.
  intros issue row m.
  assert (Hin : In ("Status", Str "closed") (omitTimestamps (fieldsFromIssue issue))).
  { rewrite omitTimestamps_fieldsFromIssue. simpl. tauto. }
  repeat split; try reflexivity; try done.
  exists ("Status", Str "closed"). split; [done|reflexivity].
Qed.

(** ** The two partitions *)




(** ** The chunk loop *)

Lemma chunkLoop_step {A} (rows : list A) (startIndex : nat) :
  chunkLoop rows startIndex
  = if decide (startIndex < length rows)
    then slice rows startIndex (startIndex + 10)
         :: chunkLoop rows (startIndex + 10)
    else [].
Proof.
  funelim (chunkLoop rows startIndex).
  - by rewrite Heq.
  - by rewrite Heq.
Qed.

Lemma slice_ten {A} (rows : list A) (startIndex : nat) :
  slice rows startIndex (startIndex + 10) = take 10 (drop startIndex rows).
Proof. unfold slice. f_equal. lia. Qed.

Lemma chunkLoop_concat {A} (rows : list A) (startIndex : nat) :
  concat (chunkLoop rows startIndex) = drop startIndex rows.
Proof.
  remember (length rows - startIndex) as fuel eqn:Hfuel.
  revert startIndex Hfuel.
  induction fuel as [fuel IH] using lt_wf_ind; intros startIndex Hfuel.
  rewrite chunkLoop_step. destruct (decide (startIndex < length rows)) as [Hlt|Hge].
  - simpl. rewrite (IH (length rows - (startIndex + 10))) by lia.
    rewrite slice_ten. rewrite <- (drop_drop rows 10 startIndex).
    apply take_drop.
  - simpl. symmetry. apply drop_ge. lia.
Qed.

Lemma chunkLoop_sizes {A} (rows : list A) (startIndex : nat) :
  Forall (fun chunk => 0 < length chunk <= 10) (chunkLoop rows startIndex).
Proof.
  remember (length rows - startIndex) as fuel eqn:Hfuel.
  revert startIndex Hfuel.
  induction fuel as [fuel IH] using lt_wf_ind; intros startIndex Hfuel.
  rewrite chunkLoop_step. destruct (decide (startIndex < length rows)) as [Hlt|Hge].
  - constructor.
    + rewrite slice_ten, length_take, length_drop. lia.
    + apply (IH (length rows - (startIndex + 10))); lia.
  - constructor.
Qed.

Lemma chunkLoop_lengths {A} (rows : list A) (startIndex : nat) :
  List.map length (chunkLoop rows startIndex)
  = if decide (startIndex < length rows)
    then Nat.min 10 (length rows - startIndex)
         :: List.map length (chunkLoop rows (startIndex + 10))
    else [].
Proof.
  rewrite chunkLoop_step. destruct (decide _); [|done]. simpl.
  by rewrite slice_ten, length_take, length_drop.
Qed.

Lemma countResults_concat {B} (results : list (list B)) :
  countResults results = length (concat results).
Proof.
  unfold countResults.
  assert (H : forall acc, fold_left (fun memo r => memo + length r) results acc
                          = acc + length (concat results)).
  { induction results as [|r results IH]; intros acc; simpl; [lia|].
    rewrite IH, length_app. lia. }
  by rewrite H.
Qed.

Lemma promiseAll_all_succeed {A B} (call : list A -> Result (list B))
    (cs : list (list A)) :
  (forall chunk, In chunk cs ->
     exists written, call chunk = Ok written /\ length written = length chunk) ->
  exists results, promiseAll call cs = Ok results
                  /\ countResults results = length (concat cs).
Proof.
  unfold promiseAll. induction cs as [|c cs IH]; intros Hall; simpl.
  - by exists [].
  - destruct (Hall c) as (w & -> & Hw); [by left|].
    destruct IH as (results & -> & Hres); [intros ch Hch; apply Hall; by right|].
    simpl. eexists. split; [done|].
    rewrite countResults_concat in *. simpl. rewrite !length_app. lia.
Qed.

Lemma writeChunks_all_succeed {A B} (call : list A -> Result (list B))
    (rows : list A) :
  (forall chunk, length chunk <= 10 ->
     exists written, call chunk = Ok written /\ length written = length chunk) ->
  writeChunks call rows = Ok (length rows).
Proof.
  intros Hcall. unfold writeChunks.
  destruct (promiseAll_all_succeed call (chunks rows)) as (results & -> & Hn).
  - intros chunk Hin. apply Hcall.
    pose proof (chunkLoop_sizes rows 0) as Hs.
    rewrite List.Forall_forall in Hs. apply (Hs chunk Hin).
  - simpl. rewrite Hn. unfold chunks. rewrite chunkLoop_concat. done.
Qed.

Lemma mapR_Thrown_iff {A B} (f : A -> Result B) (l : list A) :
  mapR f l = Thrown <-> exists x, In x l /\ f x = Thrown.
Proof.
  induction l as [|x l IH]; simpl.
  - split; [done|]. by intros (? & [] & _).
  - destruct (f x) as [y|] eqn:Hx; simpl.
    + destruct (mapR f l) as [ys|] eqn:Hl; simpl.
      * split; [done|]. intros (z & [<-|Hz] & Hf); [congruence|].
        assert (@Ok (list B) ys = Thrown) by (apply IH; by eauto). done.
      * split; [|done]. intros _. destruct (proj1 IH eq_refl) as (z & Hz & Hf).
        exists z. by split; [right|].
    + split; [|done]. intros _. exists x. by split; [left|].
Qed.

Lemma mapR_Ok_iff {A B} (f : A -> Result B) (l : list A) (ys : list B) :
  mapR f l = Ok ys <-> Forall2 (fun x y => f x = Ok y) l ys.
Proof.
  split; [apply mapR_Ok_inv|].
  induction 1 as [|x y l ys Hxy _ IH]; simpl; [done|]. by rewrite Hxy, IH.
Qed.

Lemma writeChunks_Thrown {A B} (call : list A -> Result (list B)) (rows : list A) :
  writeChunks call rows = Thrown
  <-> exists chunk, In chunk (chunks rows) /\ call chunk = Thrown.
Proof.
  unfold writeChunks, promiseAll. rewrite <- mapR_Thrown_iff.
  by destruct (mapR call (chunks rows)).
Qed.

Lemma writeChunks_Ok_iff {A B} (call : list A -> Result (list B))
    (rows : list A) (n : nat) :
  writeChunks call rows = Ok n
  <-> exists results,
        Forall2 (fun chunk written => call chunk = Ok written) (chunks rows) results
        /\ n = length (concat results).
Proof.
  unfold writeChunks, promiseAll.
  destruct (mapR call (chunks rows)) as [results|] eqn:Hm; simpl.
  - rewrite countResults_concat. split.
    + intros [= <-]. exists results. split; [by apply mapR_Ok_iff|done].
    + intros (rs & Hrs & ->). apply mapR_Ok_iff in Hrs. congruence.
  - split; [done|]. intros (rs & Hrs & _). apply mapR_Ok_iff in Hrs. congruence.
Qed.

Lemma three_chunks_of_23 {A} (rows : list A) :
  length rows = 23 ->
  exists c1 c2 c3, chunks rows = [c1; c2; c3]
    /\ length c1 = 10 /\ length c2 = 10 /\ length c3 = 3.
Proof.
  intros Hn.
  assert (Hl : List.map length (chunks rows) = [10; 10; 3]).
  { unfold chunks. do 4 (rewrite chunkLoop_lengths, Hn; simpl). done. }
  destruct (chunks rows) as [|c1 [|c2 [|c3 [|c4 rest]]]]; try discriminate Hl.
  injection Hl as H1 H2 H3. by exists c1, c2, c3.
Qed.

(** C8.  The rows handed to a batch operation are cut into consecutive
    chunks of one to ten rows which, put end to end, give the rows back.
    The service is called on these chunks and on nothing else: the
    operation fails exactly when the call for one of the chunks is
    rejected, and otherwise reports the total number of records in the
    answers to the chunks, taken in order.  So when every call of at most
    ten rows succeeds with one record per row, the insert reports the
    number of issues and the update the number of update records.
    Twenty-three new issues go out as three calls, of ten, ten and three
    rows, and the count reported is the sum of the three answers, 23
    when each row is answered by one record.  The insert-only importer
    of [ghair.js] behaves the same. *)
Theorem batches_of_at_most_ten {R : Type}
    (create : list (list (string * Prim)) -> Result (list R))
    (update : list Update -> Result (list R))
    (m : gmap string Row) (newIssues existing : list Issue) (us : list Update) :
  let newRows := List.map fieldsFromIssue newIssues in
  rowsToUpdate m existing = Ok us ->
  (concat (chunks newRows) = newRows
   /\ Forall (fun chunk => 0 < length chunk <= 10) (chunks newRows))
  /\ (concat (chunks us) = us
      /\ Forall (fun chunk => 0 < length chunk <= 10) (chunks us))
  /\ ((forall n, insertNewRows create newIssues = Ok n <-> answeredWith create newRows n)
      /\ (insertNewRows create newIssues = Thrown <-> rejectedOn create newRows))
  /\ ((forall n, updateExistingRows update m existing = Ok n <-> answeredWith update us n)
      /\ (updateExistingRows update m existing = Thrown <-> rejectedOn update us))
  /\ ((forall n, Ghair.importIssuesToAirtable create newIssues = Some n
                 <-> answeredWith create newRows n)
      /\ (Ghair.importIssuesToAirtable create newIssues = None
          <-> rejectedOn create newRows))
  /\ (oneRecordPerRow create ->
      insertNewRows create newIssues = Ok (length newIssues)
      /\ Ghair.importIssuesToAirtable create newIssues = Some (length newIssues))
  /\ (oneRecordPerRow update -> updateExistingRows update m existing = Ok (length us))
  /\ (length newIssues = 23 ->
      exists c1 c2 c3,
        chunks newRows = [c1; c2; c3]
        /\ length c1 = 10 /\ length c2 = 10 /\ length c3 = 3
        /\ (forall w1 w2 w3,
              create c1 = Ok w1 -> create c2 = Ok w2 -> create c3 = Ok w3 ->
              insertNewRows create newIssues
              = Ok (length w1 + length w2 + length w3))
        /\ (oneRecordPerRow create -> insertNewRows create newIssues = Ok 23)).
Proof.
  intros newRows Hus.
  assert (Hcat : forall A (rows : list A), concat (chunks rows) = rows).
  { intros A rows. unfold chunks. by rewrite chunkLoop_concat. }
  assert (Hghair : Ghair.importIssuesToAirtable create newIssues
                   = match writeChunks create newRows with
                     | Ok n => Some n
                     | Thrown => None
                     end) by reflexivity.
  assert (Hupd : updateExistingRows update m existing = writeChunks update us).
  { unfold updateExistingRows. by rewrite Hus. }
  assert (Hcount : oneRecordPerRow create ->
                   insertNewRows create newIssues = Ok (length newIssues)).
  { intros Hc. unfold insertNewRows.
    rewrite (writeChunks_all_succeed create) by done. by rewrite length_map. }
  split; [split; [apply Hcat | apply chunkLoop_sizes]|].
  split; [split; [apply Hcat | apply chunkLoop_sizes]|].
  split; [split|].
  { intros n. apply writeChunks_Ok_iff. }
  { apply writeChunks_Thrown. }
  split; [split|].
  { intros n. rewrite Hupd. apply writeChunks_Ok_iff. }
  { rewrite Hupd. apply writeChunks_Thrown. }
  split; [split|].
  { intros n. rewrite Hghair. unfold answeredWith.
    rewrite <- (writeChunks_Ok_iff create newRows n).
    destruct (writeChunks create newRows); split; congruence. }
  { rewrite Hghair. unfold rejectedOn. rewrite <- (writeChunks_Thrown create newRows).
    by destruct (writeChunks create newRows). }
  split; [|split].
  - intros Hc. split; [by apply Hcount|].
    rewrite Hghair.
    change (writeChunks create newRows) with (insertNewRows create newIssues).
    by rewrite (Hcount Hc).
  - intros Hu. rewrite Hupd. by apply writeChunks_all_succeed.
  - intros Hlen.
    destruct (three_chunks_of_23 newRows) as (c1 & c2 & c3 & Hch & H1 & H2 & H3).
    { subst newRows. by rewrite length_map. }
    exists c1, c2, c3. repeat split; try done.
    + intros w1 w2 w3 Hw1 Hw2 Hw3.
      unfold insertNewRows, writeChunks, promiseAll. fold newRows.
      rewrite Hch. simpl. by rewrite Hw1, Hw2, Hw3.
    + intros Hc. by rewrite (Hcount Hc), Hlen.
Qed.

Lemma batches_of_at_most_ten_witness :
  let issues :=
    List.map (fun n => sampleIssue (Z.of_nat n) "open" [] None) (seq 1 23) in
  insertNewRows (fun chunk => Ok (List.map (fun _ => tt) chunk)) issues = Ok 23
  /\ insertNewRows (Record_ := unit) (fun _ => Thrown) issues = Thrown.
Proof.
  intros issues. split.
  - refine (proj1 (proj1 (proj2 (proj2 (proj2 (proj2 (proj2
      (batches_of_at_most_ten
         (fun chunk => Ok (List.map (fun _ => tt) chunk))
         (fun chunk => Ok (List.map (fun _ => tt) chunk))
         ∅ issues [] [] _)))))) _)).
    + reflexivity.
    + intros chunk _. eexists. split; [reflexivity|]. apply length_map.
  - refine (proj2 (proj2 (proj1 (proj2 (proj2
      (batches_of_at_most_ten (R := unit)
         (fun _ => Thrown) (fun _ => Thrown) ∅ issues [] [] _))))) _).
    + reflexivity.
    + unfold rejectedOn, chunks. rewrite chunkLoop_step. simpl.
      eexists. split; [by left|reflexivity].
Defined.

(** ** The projection *)

(** C9.  Without an assignee the projection has no "Assigned to" key;
    with an assignee of handle [h] its "Assigned to" is "@" followed by
    [h]; the eight other keys are always present, in this order, with the
    issue's own values, Labels being the label names joined by commas in
    label order, the empty string when there is no label.  The projection
    inlined in [ghair.js] is the same one. *)
Theorem projection_fields (issue : Issue) :
  (assignee issue = None -> prop (fieldsFromIssue issue) "Assigned to" = None)
  /\ (forall a, assignee issue = Some a ->
        prop (fieldsFromIssue issue) "Assigned to" = Some (Str ("@" ++ login a)))
  /\ List.map fst (fieldsFromIssue issue)
     = ([ "Created At"; "Updated At"; "Issue Number"; "Name"; "Description";
          "Github URL"; "Labels"; "Status" ]
        ++ match assignee issue with
           | Some _ => [ "Assigned to" ]
           | None => []
           end)%list
  /\ prop (fieldsFromIssue issue) "Created At" = Some (Str (created_at issue))
  /\ prop (fieldsFromIssue issue) "Updated At" = Some (Str (updated_at issue))
  /\ prop (fieldsFromIssue issue) "Issue Number" = Some (Num (number issue))
  /\ prop (fieldsFromIssue issue) "Name" = Some (Str (title issue))
  /\ prop (fieldsFromIssue issue) "Description"
     = Some (match body issue with Some b => Str b | None => Null end)
  /\ prop (fieldsFromIssue issue) "Github URL" = Some (Str (html_url issue))
  /\ prop (fieldsFromIssue issue) "Labels"
     = Some (Str (join (List.map name (labels issue))))
  /\ prop (fieldsFromIssue issue) "Status" = Some (Str (state issue))
  /\ (labels issue = [] -> prop (fieldsFromIssue issue) "Labels" = Some (Str ""))
  /\ (forall a b c, List.map name (labels issue) = [a; b; c] ->
        prop (fieldsFromIssue issue) "Labels" = Some (Str (a ++ "," ++ b ++ "," ++ c)))
  /\ Ghair.allIssuesEntry issue = fieldsFromIssue issue.
Proof.
  unfold fieldsFromIssue.
  repeat split; try reflexivity.
  - by intros ->.
  - by intros a ->.
  - by destruct (assignee issue).
  - by intros ->.
  - by intros a b c ->.
Qed.

(** ** Worked examples *)

Example labels_in_another_order :
  compareField (VArr [VPrim (Str "bug"); VPrim (Str "ui")]) (Str "ui,bug")
  = Return false.
Proof. reflexivity. Qed.

Example labels_all_removed :
  compareField (VArr [VPrim (Str "bug")]) (Str "") = Return true.
Proof. reflexivity. Qed.

Example labels_none_on_either_side :
  compareField (VArr []) (Str "") = Return false
  /\ compareField (VPrim Undefined) (Str "") = Continue.
Proof. split; reflexivity. Qed.

Example issue_number_stored_as_array_throws :
  let row := sampleRow "rec5" [("Issue Number", VArr [VPrim (Num 5)])] in
  let issue := sampleIssue 5 "open" [] None in
  existingRowFor (issueNumbersToExistingRows [row]) 5 = Some row
  /\ toUpdate [issue] [row] = Thrown
  /\ importIssuesToAirtable (Record_ := unit)
       (fun chunk => Ok (List.map (fun _ => tt) chunk))
       (fun chunk => Ok (List.map (fun _ => tt) chunk))
       [issue] [row] = None.
Proof. repeat split; reflexivity. Qed.

Example two_issues_into_an_empty_table :
  let issues := [ sampleIssue 1 "open" ["bug"] None;
                  sampleIssue 2 "closed" [] (Some "alice") ] in
  importIssuesToAirtable (Record_ := unit)
    (fun chunk => Ok (List.map (fun _ => tt) chunk))
    (fun chunk => Ok (List.map (fun _ => tt) chunk))
    issues [] = Some (2, 0)
  /\ List.map (fun i => prop (fieldsFromIssue i) "Assigned to") issues
     = [None; Some (Str "@alice")].
Proof. split; reflexivity. Qed.

(** * The rest of the program *)

(** ** [split] and [join] *)

Lemma split_splitOn (s : string) : split s = splitOn "," s.
Proof. induction s as [|c s IH]; simpl; [done|]. by rewrite IH. Qed.

Lemma splitOn_cons (sep : ascii) (s : string) :
  exists piece pieces, splitOn sep s = piece :: pieces.
Proof.
  induction s as [|c s (p & ps & IH)]; simpl; [by eauto|].
  destruct (Ascii.eqb c sep); [by eauto|]. rewrite IH. by eauto.
Qed.

Lemma splitOn_app (sep : ascii) (a b : string) :
  splitOn sep (a ++ String sep b) = (splitOn sep a ++ splitOn sep b)%list.
Proof.
  induction a as [|c a IH]; simpl.
  - by rewrite Ascii.eqb_refl.
  - destruct (Ascii.eqb c sep); [by rewrite IH|].
    rewrite IH. by destruct (splitOn_cons sep a) as (p & ps & ->).
Qed.

Lemma splitOn_whole (sep : ascii) (s : string) :
  hasChar sep s = false -> splitOn sep s = [s].
Proof.
  induction s as [|c s IH]; simpl; [done|].
  intros H. apply orb_false_iff in H as [-> H]. by rewrite (IH H).
Qed.

Lemma parsedTokens_app (a b : string) :
  parsedTokens (a ++ "," ++ b) = (parsedTokens a ++ parsedTokens b)%list.
Proof.
  unfold parsedTokens. rewrite !split_splitOn.
  change (a ++ "," ++ b) with (a ++ String "," b).
  by rewrite splitOn_app, List.filter_app.
Qed.

Lemma parsedTokens_join_concat (names : list string) :
  parsedTokens (join names) = concat (List.map parsedTokens names).
Proof.
  induction names as [|a [|b names] IH].
  - reflexivity.
  - simpl. by rewrite app_nil_r.
  - change (join (a :: b :: names)) with (a ++ "," ++ join (b :: names)).
    rewrite parsedTokens_app, IH. reflexivity.
Qed.

(** X5.  Whatever the label names are, the tokens parsed back from the
    Labels string of an issue are the tokens of the first name, then
    those of the second, and so on: a name holding commas counts as
    several labels and an empty name as none. *)
Theorem parsedTokens_of_labels (issue : Issue) :
  parsedTokens (labelsString issue)
  = concat (List.map (fun l => parsedTokens (name l)) (labels issue)).
Proof.
  unfold labelsString. rewrite parsedTokens_join_concat. f_equal.
  by rewrite List.map_map.
Qed.

Lemma parsedTokens_plain (s : string) :
  hasChar "," s = false -> s <> "" -> parsedTokens s = [s].
Proof.
  intros Hc Hs. unfold parsedTokens. rewrite split_splitOn, splitOn_whole by done.
  simpl. unfold nonEmpty. simpl. by apply String.eqb_neq in Hs as ->.
Qed.

Lemma parsedTokens_join_plain (names : list string) :
  Forall (fun n => hasChar "," n = false /\ n <> "") names ->
  parsedTokens (join names) = names.
Proof.
  intros Hall. rewrite parsedTokens_join_concat.
  induction Hall as [|n names [Hc Hn] _ IH]; simpl; [done|].
  by rewrite parsedTokens_plain, IH.
Qed.

(** X4.  Label names that are non-empty and free of commas survive the
    trip through the Labels string: splitting the joined names at the
    commas gives the names back, in order, with no empty piece to drop. *)
Theorem labels_round_trip (names : list string) :
  Forall (fun n => hasChar "," n = false /\ n <> "") names ->
  names <> [] ->
  split (join names) = names /\ parsedTokens (join names) = names.
Proof.
  intros Hall Hne. split; [|by apply parsedTokens_join_plain].
  induction Hall as [|n [|n' names] [Hc Hn] Hrest IH]; [done| |].
  - simpl. by rewrite split_splitOn, splitOn_whole.
  - change (join (n :: n' :: names)) with (n ++ String "," (join (n' :: names))).
    rewrite split_splitOn, splitOn_app, splitOn_whole, <- split_splitOn by done.
    rewrite IH; done.
Qed.

Lemma labels_round_trip_witness :
  parsedTokens (join ["bug"; "good first issue"; "ui"])
  = ["bug"; "good first issue"; "ui"].
Proof.
  apply (labels_round_trip ["bug"; "good first issue"; "ui"]); [|done].
  repeat constructor; done.
Defined.

(** X6.  A row whose Labels cell is an array holding the issue's label
    names, in any order, is never reported as different on Labels when
    the names are non-empty and free of commas. *)
Theorem labels_array_in_any_order (issue : Issue) (cell : list string) :
  Forall (fun n => hasChar "," n = false /\ n <> "")
    (List.map name (labels issue)) ->
  Permutation (List.map name (labels issue)) cell ->
  compareField (VArr (List.map (fun n => VPrim (Str n)) cell))
    (Str (labelsString issue)) = Return false.
Proof.
  intros Hall Hperm. unfold compareField.
  destruct (compareArray_Str (List.map (fun n => VPrim (Str n)) cell)
              (labelsString issue)) as (b & -> & Hb).
  unfold labelsString in Hb. rewrite (parsedTokens_join_plain _ Hall) in Hb.
  assert (Hst : storedEntries (List.map (fun n => VPrim (Str n)) cell)
                = List.map (fun n => VPrim (Str n)) cell).
  { unfold storedEntries. apply List.forallb_filter_id. apply forallb_forall.
    intros v Hv. apply in_map_iff in Hv as (n & <- & Hn).
    apply (Permutation_in _ (Permutation_sym Hperm)) in Hn.
    rewrite List.Forall_forall in Hall. destruct (Hall n Hn) as [_ Hne].
    simpl. by apply String.eqb_neq in Hne as ->. }
  rewrite Hst, length_map in Hb.
  destruct b; [|done]. exfalso.
  destruct (proj1 Hb eq_refl) as [[Hl He]|[Hne|(t & Ht & Hmiss)]].
  - rewrite He in Hperm. apply Permutation_nil in Hperm. subst cell.
    simpl in Hl. lia.
  - apply Hne. symmetry. by apply Permutation_length.
  - apply Hmiss, in_map_iff. exists t. split; [done|].
    by apply (Permutation_in _ Hperm).
Qed.

Lemma labels_array_in_any_order_witness :
  compareField (VArr [VPrim (Str "ui"); VPrim (Str "bug")])
    (Str (labelsString (sampleIssue 5 "open" ["bug"; "ui"] None)))
  = Return false.
Proof.
  apply (labels_array_in_any_order (sampleIssue 5 "open" ["bug"; "ui"] None)
           ["ui"; "bug"]).
  - repeat constructor; done.
  - apply perm_swap.
Defined.

(** ** [owner] and [repo] *)

(** X3.  A [githubUrl] of the form owner, slash, repo, neither holding a
    slash, is taken apart into that owner and that repo; anything after a
    second slash is ignored; and without any slash the repo is
    [undefined]. *)
Theorem ownerRepo_of_slug (owner repo : string) :
  hasChar "/" owner = false -> hasChar "/" repo = false ->
  ownerRepo (owner ++ "/" ++ repo) = (Str owner, Str repo)
  /\ (forall rest, ownerRepo (owner ++ "/" ++ repo ++ "/" ++ rest)
                   = (Str owner, Str repo))
  /\ ownerRepo owner = (Str owner, Undefined).
Proof.
  intros Ho Hr. unfold ownerRepo. repeat split.
  - change (owner ++ "/" ++ repo) with (owner ++ String "/" repo).
    by rewrite splitOn_app, !splitOn_whole.
  - intros rest.
    change (owner ++ "/" ++ repo ++ "/" ++ rest)
      with (owner ++ String "/" (repo ++ String "/" rest)).
    by rewrite !splitOn_app, (splitOn_whole _ owner Ho), (splitOn_whole _ repo Hr).
  - by rewrite splitOn_whole.
Qed.

Lemma ownerRepo_of_slug_witness :
  ownerRepo "everydotorg/github-airtable-importer"
  = (Str "everydotorg", Str "github-airtable-importer").
Proof.
  apply (ownerRepo_of_slug "everydotorg" "github-airtable-importer"); reflexivity.
Defined.

(** ** [validateOptions] *)

Lemma truthy_supplied (value : option string) :
  truthyPrim (Cli.optionValue value) = true <-> supplied value.
Proof.
  unfold supplied. destruct value as [s|]; simpl.
  - rewrite negb_true_iff, String.eqb_neq. split; [by eauto|].
    by intros (t & [= ->] & Ht).
  - split; [done|]. by intros (t & [=] & _).
Qed.

Lemma not_supplied (value : option string) :
  truthyPrim (Cli.optionValue value) = false <-> ~ supplied value.
Proof. rewrite <- truthy_supplied. by destruct (truthyPrim _). Qed.

Lemma requireArg_eq (value : option string) (flag : string) (st : bool * list string) :
  Cli.requireArg value flag st
  = (fst st || negb (truthyPrim (Cli.optionValue value)),
     (snd st ++ if truthyPrim (Cli.optionValue value) then []
                else [Cli.required flag])%list).
Proof.
  unfold Cli.requireArg. destruct st as [e l].
  destruct (truthyPrim _); simpl; [by rewrite orb_false_r, app_nil_r|].
  by rewrite orb_true_r.
Qed.

Lemma includes_In (choices : list string) (s : string) :
  Cli.includes choices s = true <-> In s choices.
Proof.
  unfold Cli.includes. rewrite existsb_exists. split.
  - intros (c & Hc & Heq). by apply String.eqb_eq in Heq as ->.
  - intros Hin. exists s. split; [done|]. apply String.eqb_refl.
Qed.

(** X1.  [validateOptions] returns, having logged nothing, exactly when
    the five required options are supplied non-empty and the state,
    lower-cased, is open, closed or all; it throws exactly when the state
    option is missing; in every other case it leaves through
    [process.exit(1)]. *)
Theorem validateOptions_outcome (options : Cli.Options) :
  let valid :=
    supplied (Cli.githubToken options) /\ supplied (Cli.airtableApiKey options)
    /\ supplied (Cli.airtableBase options) /\ supplied (Cli.airtableTable options)
    /\ supplied (Cli.githubUrl options)
    /\ exists s, Cli.state options = Some s
                 /\ In (Cli.toLowerCase s) ["open"; "closed"; "all"] in
  (Cli.validateOptions options = ([], Cli.Returns) <-> valid)
  /\ (snd (Cli.validateOptions options) = Cli.Returns <-> valid)
  /\ (snd (Cli.validateOptions options) = Cli.Throws <-> Cli.state options = None)
  /\ (snd (Cli.validateOptions options) = Cli.Exits
      <-> Cli.state options <> None /\ ~ valid).
Proof.
  intros valid. subst valid. rewrite <- !truthy_supplied.
  unfold Cli.validateOptions. rewrite !requireArg_eq.
  set (t1 := truthyPrim (Cli.optionValue (Cli.githubToken options))).
  set (t2 := truthyPrim (Cli.optionValue (Cli.airtableApiKey options))).
  set (t3 := truthyPrim (Cli.optionValue (Cli.airtableBase options))).
  set (t4 := truthyPrim (Cli.optionValue (Cli.airtableTable options))).
  set (t5 := truthyPrim (Cli.optionValue (Cli.githubUrl options))).
  destruct (Cli.state options) as [s|].
  - set (ok := Cli.includes ["open"; "closed"; "all"] (Cli.toLowerCase s)).
    assert (Hvalid :
      (t1 = true /\ t2 = true /\ t3 = true /\ t4 = true /\ t5 = true
       /\ exists s0, Some s = Some s0
                     /\ In (Cli.toLowerCase s0) ["open"; "closed"; "all"])
      <-> t1 && t2 && t3 && t4 && t5 && ok = true).
    { rewrite !andb_true_iff. unfold ok. rewrite includes_In. split.
      - intros (? & ? & ? & ? & ? & s0 & [= <-] & ?). tauto.
      - intros (((((? & ?) & ?) & ?) & ?) & ?). repeat split; try done.
        by exists s. }
    rewrite Hvalid. clearbody t1 t2 t3 t4 t5 ok. clear Hvalid.
    destruct t1, t2, t3, t4, t5, ok; cbn [fst snd orb negb andb app];
      repeat split; try done; by intros [_ H].
  - cbn [fst snd]. repeat split; try done.
    + by intros (_ & _ & _ & _ & _ & t & [=] & _).
    + by intros (_ & _ & _ & _ & _ & t & [=] & _).
    + by intros [H _].
Qed.

Lemma In_optional_line (t : bool) (line msg : string) :
  In msg (if t then [] else [line]) <-> t = false /\ line = msg.
Proof. destruct t; simpl; intuition congruence. Qed.

Lemma In_usageLines (options : Cli.Options) (msg : string) :
  In msg (usageLines options)
  <-> (~ supplied (Cli.githubToken options)
       /\ Cli.required "--github-token" = msg)
      \/ (~ supplied (Cli.airtableApiKey options)
          /\ Cli.required "--airtable-api-key" = msg)
      \/ (~ supplied (Cli.airtableBase options)
          /\ Cli.required "--airtable-base" = msg)
      \/ (~ supplied (Cli.airtableTable options)
          /\ Cli.required "--airtable-table" = msg)
      \/ (~ supplied (Cli.githubUrl options)
          /\ Cli.required "--github-url" = msg).
Proof.
  unfold usageLines. rewrite !in_app_iff, !In_optional_line, <- !not_supplied.
  tauto.
Qed.

(** The lines [validateOptions] logs: the usage lines of the required
    options, then that of the state, then the empty line that goes
    before [process.exit(1)]. *)
Lemma validateOptions_logged (options : Cli.Options) :
  fst (Cli.validateOptions options)
  = match Cli.state options with
    | None => usageLines options
    | Some s =>
        let ok := Cli.includes ["open"; "closed"; "all"] (Cli.toLowerCase s) in
        (usageLines options
         ++ (if ok then [] else [Cli.stateUsage])
         ++ (if snd (Cli.validateOptions options) is Cli.Exits then [""] else []))%list
    end.
Proof.
  unfold Cli.validateOptions, usageLines. rewrite !requireArg_eq.
  destruct (Cli.state options) as [s|];
    destruct (truthyPrim (Cli.optionValue (Cli.githubToken options))),
             (truthyPrim (Cli.optionValue (Cli.airtableApiKey options))),
             (truthyPrim (Cli.optionValue (Cli.airtableBase options))),
             (truthyPrim (Cli.optionValue (Cli.airtableTable options))),
             (truthyPrim (Cli.optionValue (Cli.githubUrl options)));
    try reflexivity;
    destruct (Cli.includes ["open"; "closed"; "all"] (Cli.toLowerCase s));
    reflexivity.
Qed.

(** X2.  [validateOptions] does not stop at the first problem: the usage
    line of each of the five required options is logged exactly when
    that option is missing or empty, whatever the other options are, and
    when a state is given its usage line is logged exactly when the state
    is not one of the three words. *)
Theorem validateOptions_reports_every_failure (options : Cli.Options) :
  let logged := fst (Cli.validateOptions options) in
  (In (Cli.required "--github-token") logged
   <-> ~ supplied (Cli.githubToken options))
  /\ (In (Cli.required "--airtable-api-key") logged
      <-> ~ supplied (Cli.airtableApiKey options))
  /\ (In (Cli.required "--airtable-base") logged
      <-> ~ supplied (Cli.airtableBase options))
  /\ (In (Cli.required "--airtable-table") logged
      <-> ~ supplied (Cli.airtableTable options))
  /\ (In (Cli.required "--github-url") logged
      <-> ~ supplied (Cli.githubUrl options))
  /\ (forall s, Cli.state options = Some s ->
        (In Cli.stateUsage logged
         <-> ~ In (Cli.toLowerCase s) ["open"; "closed"; "all"])).
Proof.
  intros logged. subst logged. rewrite validateOptions_logged.
  assert (Htail : forall msg s,
    In msg ((if Cli.includes ["open"; "closed"; "all"] (Cli.toLowerCase s)
             then [] else [Cli.stateUsage])
            ++ (if snd (Cli.validateOptions options) is Cli.Exits then [""] else []))%list
    <-> (~ In (Cli.toLowerCase s) ["open"; "closed"; "all"] /\ Cli.stateUsage = msg)
        \/ (snd (Cli.validateOptions options) = Cli.Exits /\ "" = msg)).
  { intros msg s. rewrite in_app_iff, <- (includes_In ["open"; "closed"; "all"]).
    destruct (Cli.includes _ _), (snd (Cli.validateOptions options)); simpl;
      intuition congruence. }
  assert (Hall : forall msg,
    In msg (match Cli.state options with
            | Some s =>
                (usageLines options
                 ++ (if Cli.includes ["open"; "closed"; "all"] (Cli.toLowerCase s)
                     then [] else [Cli.stateUsage])
                 ++ (if snd (Cli.validateOptions options) is Cli.Exits
                     then [""] else []))%list
            | None => usageLines options
            end)
    <-> In msg (usageLines options)
        \/ exists s, Cli.state options = Some s
             /\ ((~ In (Cli.toLowerCase s) ["open"; "closed"; "all"]
                  /\ Cli.stateUsage = msg)
                 \/ (snd (Cli.validateOptions options) = Cli.Exits /\ "" = msg))).
  { intros msg. destruct (Cli.state options) as [s|].
    - rewrite in_app_iff, Htail. split.
      + intros [H|H]; [by left|right; by exists s].
      + intros [H|(s0 & [= <-] & H)]; [by left|by right].
    - split; [by left|]. by intros [H|(s0 & [=] & _)]. }
  cbn zeta. repeat split; rewrite ?Hall, ?In_usageLines.
  all: try (intros Hfwd;
            repeat match goal with
                   | H : _ \/ _ |- _ => destruct H
                   | H : _ /\ _ |- _ => destruct H
                   | H : exists _, _ |- _ => destruct H
                   | H : @eq string _ _ |- _ =>
                       first [ vm_compute in H; discriminate | clear H ]
                   end;
            first [ assumption | congruence ]).
  all: try (intros Hn; left; by intuition).
  intros Hn. right. eexists. split; [eassumption|]. left. split; [exact Hn|reflexivity].
Qed.

(** ** More on the comparison of a matched issue *)

Lemma fieldDiffers_scalar (row : Row) (key : string) (v : Prim) :
  (forall elems, getField row key <> VArr elems) ->
  (fieldDiffers row (key, v)
   <-> normalizeEmpty (getField row key) <> normalizeEmpty (VPrim v)).
Proof.
  intros Hna. unfold fieldDiffers. cbn [fst snd]. rewrite compareField_scalar by done.
  rewrite <- orUndefined_eq_iff. by destruct (strictEq _ _).
Qed.

Lemma compareField_inSync (existingField : Value) (v : Prim) :
  (forall elems, existingField <> VArr elems) ->
  normalizeEmpty existingField = normalizeEmpty (VPrim v) ->
  compareField existingField v = Continue.
Proof.
  intros Hna Heq. rewrite compareField_scalar by done.
  apply orUndefined_eq_iff in Heq. by rewrite Heq.
Qed.

(** X8.  Against a row that stores no array under the projected keys the
    callback always completes, and it answers [true] exactly when some
    projected field other than the timestamps differs from the stored one
    once missing and empty values are identified. *)
Theorem needsUpdate_without_arrays (m : gmap string Row) (issue : Issue) (row : Row) :
  existingRowFor m (number issue) = Some row ->
  (forall key v elems, In (key, v) (omitTimestamps (fieldsFromIssue issue)) ->
     getField row key <> VArr elems) ->
  exists b, needsUpdate m issue = Ok b
    /\ (b = true <->
        exists key v, In (key, v) (omitTimestamps (fieldsFromIssue issue))
          /\ normalizeEmpty (getField row key) <> normalizeEmpty (VPrim v)).
Proof.
  intros Hrow Hna. unfold needsUpdate. rewrite Hrow.
  destruct (forIn_scalars row (omitTimestamps (fieldsFromIssue issue)))
    as (b & Hb & Hiff).
  { intros [key v] elems Hin. by apply (Hna key v). }
  exists b. split; [done|]. rewrite Hiff. split.
  - intros ([key v] & Hin & Hd). exists key, v. split; [done|].
    apply fieldDiffers_scalar in Hd; [done|]. intros elems. by apply (Hna key v).
  - intros (key & v & Hin & Hd). exists (key, v). split; [done|].
    apply fieldDiffers_scalar; [|done]. intros elems. by apply (Hna key v).
Qed.

Lemma needsUpdate_without_arrays_witness :
  exists b,
    needsUpdate
      (issueNumbersToExistingRows
         [sampleRow "rec5" (storedIssue5 (VPrim (Str "bug,ui")) "open")])
      (sampleIssue 5 "closed" ["bug"; "ui"] None) = Ok b.
Proof.
  destruct (needsUpdate_without_arrays
              (issueNumbersToExistingRows
                 [sampleRow "rec5" (storedIssue5 (VPrim (Str "bug,ui")) "open")])
              (sampleIssue 5 "closed" ["bug"; "ui"] None)
              (sampleRow "rec5" (storedIssue5 (VPrim (Str "bug,ui")) "open")))
    as (b & Hb & _).
  - reflexivity.
  - intros key v elems Hin. simpl in Hin.
    repeat (destruct Hin as [[= <- <-]|Hin]; [vm_compute; discriminate|]).
    destruct Hin.
  - by exists b.
Defined.

(** X7.  When the row stores Labels as an array and the four fields
    compared before Labels agree with the row, the answer of the callback
    is the answer of the array rule on Labels alone: two issues that
    differ only in state, assignee or timestamps get the same answer, so
    a change of Status or of Assigned to goes unnoticed. *)
Theorem labels_array_decides (m : gmap string Row) (issue : Issue) (row : Row)
    (elems : list Value) :
  existingRowFor m (number issue) = Some row ->
  getField row "Labels" = VArr elems ->
  (forall key v, In (key, v) (take 4 (omitTimestamps (fieldsFromIssue issue))) ->
     (forall es, getField row key <> VArr es)
     /\ normalizeEmpty (getField row key) = normalizeEmpty (VPrim v)) ->
  needsUpdate m issue = compareArray elems (Str (labelsString issue))
  /\ (forall issue', number issue' = number issue -> title issue' = title issue ->
        body issue' = body issue -> html_url issue' = html_url issue ->
        labels issue' = labels issue ->
        needsUpdate m issue' = needsUpdate m issue).
Proof.
  intros Hrow Harr Hfour.
  assert (Hkey : forall i, number i = number issue -> title i = title issue ->
            body i = body issue -> html_url i = html_url issue ->
            labels i = labels issue ->
            needsUpdate m i = compareArray elems (Str (labelsString issue))).
  { intros i Hn Ht Hb Hu Hl. unfold needsUpdate. rewrite Hn, Hrow.
    rewrite omitTimestamps_fieldsFromIssue in *. unfold labelsString in *.
    rewrite Hn, Ht, Hb, Hu, Hl.
    apply (forIn_stops_at_array row
             [ ("Issue Number", Num (number issue)); ("Name", Str (title issue));
               ("Description", match body issue with Some b => Str b | None => Null end);
               ("Github URL", Str (html_url issue)) ]
             (("Status", Str (state i))
              :: match assignee i with
                 | Some a => [("Assigned to", Str ("@" ++ login a))]
                 | None => []
                 end)
             "Labels" _ elems); [|done].
    intros [key v] Hin. simpl. destruct (Hfour key v Hin) as [Hna Heq].
    by apply compareField_inSync. }
  split; [by apply Hkey|].
  intros issue' Hn Ht Hb Hu Hl. by rewrite (Hkey issue'), (Hkey issue).
Qed.

Lemma labels_array_decides_witness :
  let row := sampleRow "rec5"
               (storedIssue5 (VArr [VPrim (Str "bug"); VPrim (Str "ui")]) "open") in
  needsUpdate (issueNumbersToExistingRows [row])
    (sampleIssue 5 "closed" ["bug"; "ui"] (Some "alice"))
  = compareArray [VPrim (Str "bug"); VPrim (Str "ui")] (Str "bug,ui").
Proof.
  intros row.
  refine (proj1 (labels_array_decides (issueNumbersToExistingRows [row])
                   (sampleIssue 5 "closed" ["bug"; "ui"] (Some "alice")) row
                   [VPrim (Str "bug"); VPrim (Str "ui")] _ _ _)).
  - reflexivity.
  - reflexivity.
  - intros key v Hin. simpl in Hin.
    repeat (destruct Hin as [[= <- <-]|Hin];
            [split; [vm_compute; discriminate|reflexivity]|]).
    destruct Hin.
Defined.

Lemma numberToString_nonempty (n : Z) : numberToString n <> "".
Proof.
  unfold numberToString.
  assert (Hu : forall d, NilZero.string_of_uint d = "" -> d = Decimal.Nil)
    by (intros []; simpl; congruence).
  destruct n as [|p|p]; simpl; try discriminate.
  intros H. apply Hu in H. by apply (DecimalPos.Unsigned.to_uint_nonnil p).
Qed.

(** X9.  A matched row whose issue-number cell is a string (a text
    column) makes the callback answer [true] on every run: the number 5
    and the string "5" give the same key, but are not strictly equal. *)
Theorem text_issue_number_always_flags (existingRows : list Row) (issue : Issue)
    (row : Row) (s : string) :
  existingRowFor (issueNumbersToExistingRows existingRows) (number issue) = Some row ->
  getField row "Issue Number" = VPrim (Str s) ->
  needsUpdate (issueNumbersToExistingRows existingRows) issue = Ok true.
Proof.
  intros Hrow Hcell. pose proof (existingRowFor_Some_In _ _ _ Hrow) as [_ Hkey].
  rewrite Hcell in Hkey. simpl in Hkey.
  unfold needsUpdate. rewrite Hrow, omitTimestamps_fieldsFromIssue. simpl.
  rewrite Hcell. rewrite compareField_scalar by done.
  replace (strictEq _ _) with false; [done|]. symmetry.
  apply not_true_is_false. rewrite orUndefined_eq_iff, !normalizeEmpty_truthy.
  simpl. replace (s =? "")%string with false.
  - simpl. by destruct (negb _).
  - symmetry. apply String.eqb_neq. rewrite Hkey. apply numberToString_nonempty.
Qed.

Lemma text_issue_number_always_flags_witness :
  needsUpdate (issueNumbersToExistingRows [dupNew])
    (sampleIssue 7 "closed" [] None) = Ok true.
Proof.
  apply (text_issue_number_always_flags [dupNew] (sampleIssue 7 "closed" [] None)
           dupNew "7"); reflexivity.
Defined.

(** ** When the comparison throws *)

Lemma filterR_Thrown {A} (p : A -> Result bool) (l : list A) (x : A) :
  In x l -> p x = Thrown -> filterR p l = Thrown.
Proof.
  induction l as [|y l IH]; intros Hin Hx; [done|]. simpl.
  destruct Hin as [->|Hin].
  - by rewrite Hx.
  - destruct (p y); [|done]. simpl. by rewrite (IH Hin Hx).
Qed.

(** X10.  A matched row whose issue-number cell is an array makes the
    callback throw for an issue numbered other than 0: the number has no
    [split].  The filter of [updateExistingRows] is then abandoned, and
    [importIssuesToAirtable] ends in its [catch], returning [undefined],
    whatever the two write calls answer. *)
Theorem array_issue_number_aborts {R : Type}
    (create : list (list (string * Prim)) -> Result (list R))
    (update : list Update -> Result (list R))
    (issues : list Issue) (existingRows : list Row) (issue : Issue) (row : Row)
    (elems : list Value) :
  In issue issues ->
  number issue <> 0%Z ->
  existingRowFor (issueNumbersToExistingRows existingRows) (number issue) = Some row ->
  getField row "Issue Number" = VArr elems ->
  needsUpdate (issueNumbersToExistingRows existingRows) issue = Thrown
  /\ toUpdate issues existingRows = Thrown
  /\ importIssuesToAirtable create update issues existingRows = None.
Proof.
  intros Hin Hn Hrow Hcell.
  assert (Hthrow : needsUpdate (issueNumbersToExistingRows existingRows) issue = Thrown).
  { unfold needsUpdate. rewrite Hrow, omitTimestamps_fieldsFromIssue. simpl.
    rewrite Hcell. simpl. unfold compareArray. simpl.
    apply Z.eqb_neq in Hn. rewrite Hn. simpl. by rewrite andb_false_r. }
  assert (Hrows : rowsToUpdate (issueNumbersToExistingRows existingRows)
                    (existingIssues issues existingRows) = Thrown).
  { unfold rowsToUpdate, issuesToUpdate.
    rewrite (filterR_Thrown _ _ issue); [done| |done].
    apply existingIssues_In. split; [done|]. by rewrite Hrow. }
  split; [done|]. split; [done|].
  unfold importIssuesToAirtable, updateExistingRows. rewrite Hrows. simpl.
  by destruct (insertNewRows create _).
Qed.

Lemma array_issue_number_aborts_witness :
  toUpdate [sampleIssue 5 "open" [] None]
    [sampleRow "rec5" [("Issue Number", VArr [VPrim (Num 5)])]] = Thrown.
Proof.
  refine (proj1 (proj2 (array_issue_number_aborts
    (fun chunk => Ok (List.map (fun _ => tt) chunk))
    (fun chunk => Ok (List.map (fun _ => tt) chunk))
    [sampleIssue 5 "open" [] None]
    [sampleRow "rec5" [("Issue Number", VArr [VPrim (Num 5)])]]
    (sampleIssue 5 "open" [] None)
    (sampleRow "rec5" [("Issue Number", VArr [VPrim (Num 5)])])
    [VPrim (Num 5)] _ _ _ _))).
  - by left.
  - done.
  - reflexivity.
  - reflexivity.
Defined.

(** ** Numeric join keys *)

(** X11.  When every row stores its issue number as a number, matching
    is exact: the row found for an issue stores that issue's number, and
    an issue is inserted exactly when no row stores its number. *)
Theorem numeric_keys_match_exactly (issues : list Issue) (existingRows : list Row) :
  (forall r, In r existingRows -> exists k, getField r "Issue Number" = VPrim (Num k)) ->
  (forall n row,
     existingRowFor (issueNumbersToExistingRows existingRows) n = Some row ->
     getField row "Issue Number" = VPrim (Num n))
  /\ (forall i, In i (toInsert issues existingRows)
        <-> In i issues
            /\ forall r, In r existingRows ->
                 getField r "Issue Number" <> VPrim (Num (number i))).
Proof.
  intros Hnum. split.
  - intros n row Hrow. apply existingRowFor_Some_In in Hrow as [Hin Hkey].
    destruct (Hnum row Hin) as [k Hk]. rewrite Hk in Hkey |- *. simpl in Hkey.
    by apply numberToString_inj in Hkey as ->.
  - intros i. rewrite toInsert_In. split; intros [Hi Hno]; (split; [done|]).
    + intros r Hr Hcell.
      assert (Hs : is_Some (existingRowFor (issueNumbersToExistingRows existingRows)
                              (number i))).
      { apply existingRowFor_is_Some. exists r. split; [done|]. by rewrite Hcell. }
      rewrite Hno in Hs. by destruct Hs.
    + apply eq_None_not_Some. intros Hs.
      apply existingRowFor_is_Some in Hs as (r & Hr & Hkey).
      destruct (Hnum r Hr) as [k Hk]. rewrite Hk in Hkey. simpl in Hkey.
      apply numberToString_inj in Hkey as ->. by apply (Hno r).
Qed.

Lemma numeric_keys_match_exactly_witness :
  getField other8 "Issue Number" = VPrim (Num 8).
Proof.
  refine (proj1 (numeric_keys_match_exactly [] [dupOld; other8] _) 8%Z other8 _).
  - intros r [<-|[<-|[]]]; eexists; reflexivity.
  - reflexivity.
Defined.

(** ** The write phase *)

Lemma chunks_nil {A} : chunks (@nil A) = [].
Proof.
  unfold chunks. rewrite chunkLoop_step.
  destruct (decide (0 < length (@nil A))) as [H|]; [simpl in H; lia|done].
Qed.

(** X13.  A batch write fails exactly when the service rejects the call
    for one of the chunks; otherwise it reports the total number of
    records in the answers, whatever their number per call. *)
Theorem writeChunks_outcome {A B : Type} (call : list A -> Result (list B))
    (rows : list A) :
  (writeChunks call rows = Thrown
   <-> exists chunk, In chunk (chunks rows) /\ call chunk = Thrown)
  /\ (forall n, writeChunks call rows = Ok n
        <-> exists results,
              Forall2 (fun chunk written => call chunk = Ok written)
                (chunks rows) results
              /\ n = length (concat results)).
Proof.
  unfold writeChunks, promiseAll. split.
  - rewrite <- mapR_Thrown_iff. by destruct (mapR call (chunks rows)).
  - intros n. destruct (mapR call (chunks rows)) as [results|] eqn:Hm; simpl.
    + rewrite countResults_concat. split.
      * intros [= <-]. exists results. split; [by apply mapR_Ok_iff|done].
      * intros (rs & Hrs & ->). apply mapR_Ok_iff in Hrs. congruence.
    + split; [done|]. intros (rs & Hrs & _). apply mapR_Ok_iff in Hrs. congruence.
Qed.

Lemma forIn_inSync (row : Row) (fs : list (string * Prim)) :
  (forall key v, In (key, v) fs ->
     (forall elems, getField row key <> VArr elems)
     /\ normalizeEmpty (getField row key) = normalizeEmpty (VPrim v)) ->
  forIn row fs = Ok false.
Proof.
  induction fs as [|[key v] fs IH]; intros Hs; simpl; [done|].
  destruct (Hs key v) as [Hna Heq]; [by left|].
  rewrite (compareField_inSync _ _ Hna Heq). apply IH.
  intros k w Hin. apply Hs. by right.
Qed.

Lemma filterR_none {A} (p : A -> Result bool) (l : list A) :
  (forall x, In x l -> p x = Ok false) -> filterR p l = Ok [].
Proof.
  induction l as [|x l IH]; intros Hp; simpl; [done|].
  rewrite (Hp x) by (by left). simpl. rewrite IH; [done|].
  intros y Hy. apply Hp. by right.
Qed.

Lemma filter_none {A} (f : A -> bool) (l : list A) :
  (forall x, In x l -> f x = false) -> List.filter f l = [].
Proof.
  induction l as [|x l IH]; intros Hf; simpl; [done|].
  rewrite (Hf x) by (by left). apply IH. intros y Hy. apply Hf. by right.
Qed.

Lemma filter_all {A} (f : A -> bool) (l : list A) :
  (forall x, In x l -> f x = true) -> List.filter f l = l.
Proof.
  induction l as [|x l IH]; intros Hf; simpl; [done|].
  rewrite (Hf x) by (by left). f_equal. apply IH. intros y Hy. apply Hf. by right.
Qed.

(** X12.  When every issue has a row that agrees with it on all the
    projected fields but the timestamps, nothing is to insert, nothing is
    to update, and [importIssuesToAirtable] reports 0 and 0 without
    depending on the write calls at all: a second run over a table that
    stored what the first run sent writes nothing. *)
Theorem in_sync_table_writes_nothing {R : Type}
    (create : list (list (string * Prim)) -> Result (list R))
    (update : list Update -> Result (list R))
    (issues : list Issue) (existingRows : list Row) :
  (forall i, In i issues ->
     exists row,
       existingRowFor (issueNumbersToExistingRows existingRows) (number i) = Some row
       /\ inSync row i) ->
  toInsert issues existingRows = []
  /\ toUpdate issues existingRows = Ok []
  /\ importIssuesToAirtable create update issues existingRows = Some (0, 0).
Proof.
  intros Hsync.
  assert (Hins : toInsert issues existingRows = []).
  { unfold toInsert. apply filter_none. intros i Hi.
    destruct (Hsync i Hi) as (row & Hrow & _).
    apply negb_false_iff, hasExistingRow_true. by rewrite Hrow. }
  assert (Hupd : rowsToUpdate (issueNumbersToExistingRows existingRows)
                   (existingIssues issues existingRows) = Ok []).
  { unfold rowsToUpdate, issuesToUpdate. rewrite filterR_none; [done|].
    intros i Hi. apply existingIssues_In in Hi as [Hi _].
    destruct (Hsync i Hi) as (row & Hrow & Hs).
    unfold needsUpdate. rewrite Hrow. by apply forIn_inSync. }
  split; [done|]. split; [done|].
  unfold importIssuesToAirtable, insertNewRows, updateExistingRows.
  rewrite Hins, Hupd. simpl. unfold writeChunks. by rewrite !chunks_nil.
Qed.

Lemma in_sync_table_writes_nothing_witness :
  importIssuesToAirtable (Record_ := unit) (fun _ => Thrown) (fun _ => Thrown)
    [sampleIssue 5 "open" ["bug"; "ui"] None]
    [sampleRow "rec5" (storedIssue5 (VPrim (Str "bug,ui")) "open")]
  = Some (0, 0).
Proof.
  refine (proj2 (proj2 (in_sync_table_writes_nothing (fun _ => Thrown) (fun _ => Thrown)
    [sampleIssue 5 "open" ["bug"; "ui"] None]
    [sampleRow "rec5" (storedIssue5 (VPrim (Str "bug,ui")) "open")] _))).
  intros i [<-|[]].
  exists (sampleRow "rec5" (storedIssue5 (VPrim (Str "bug,ui")) "open")).
  split; [reflexivity|]. intros key v Hin. simpl in Hin.
  repeat (destruct Hin as [[= <- <-]|Hin];
          [split; [vm_compute; discriminate|reflexivity]|]).
  destruct Hin.
Defined.

Lemma filter_partition_length {A} (f : A -> bool) (l : list A) :
  length (List.filter (fun x => negb (f x)) l) + length (List.filter f l) = length l.
Proof. induction l as [|x l IH]; simpl; [done|]. destruct (f x); simpl; lia. Qed.

Lemma filter_length_le {A} (f : A -> bool) (l : list A) :
  length (List.filter f l) <= length l.
Proof. induction l as [|x l IH]; simpl; [done|]. destruct (f x); simpl; lia. Qed.

Lemma rowsToUpdate_length (m : gmap string Row) (l : list Issue) (us : list Update) :
  rowsToUpdate m l = Ok us -> length us <= length l.
Proof.
  unfold rowsToUpdate, issuesToUpdate.
  destruct (filterR (needsUpdate m) l) as [kept|] eqn:Hf; [|done]. simpl.
  intros Hm. apply mapR_Ok_inv, Forall2_length in Hm. rewrite <- Hm.
  destruct (filterR_Ok_inv _ _ _ Hf) as [-> _]. apply filter_length_le.
Qed.

(** With a service that answers one record per row, the two counts are
    the numbers of issues to insert and of update records. *)
Lemma import_counts {R : Type}
    (create : list (list (string * Prim)) -> Result (list R))
    (update : list Update -> Result (list R))
    (issues : list Issue) (existingRows : list Row) (a b : nat) :
  oneRecordPerRow create -> oneRecordPerRow update ->
  (importIssuesToAirtable create update issues existingRows = Some (a, b)
   <-> exists us, toUpdate issues existingRows = Ok us
         /\ a = length (toInsert issues existingRows) /\ b = length us).
Proof.
  intros Hc Hu. unfold importIssuesToAirtable, insertNewRows, updateExistingRows.
  rewrite (writeChunks_all_succeed create) by done. rewrite length_map.
  unfold toUpdate.
  destruct (rowsToUpdate _ _) as [us|]; simpl.
  - rewrite (writeChunks_all_succeed update) by done. split.
    + intros [= <- <-]. by exists us.
    + by intros (us' & [= <-] & -> & ->).
  - split; [done|]. by intros (us' & [=] & _).
Qed.

(** X14.  When rows store arrays only under string-valued keys and the
    service answers one record per row, [importIssuesToAirtable] reports
    the number of issues without a row and the number of update records,
    and the two together never exceed the number of issues: no issue is
    written twice. *)
Theorem import_reports_each_issue_once {R : Type}
    (create : list (list (string * Prim)) -> Result (list R))
    (update : list Update -> Result (list R))
    (issues : list Issue) (existingRows : list Row) :
  oneRecordPerRow create -> oneRecordPerRow update ->
  (forall i row, In i issues ->
     existingRowFor (issueNumbersToExistingRows existingRows) (number i) = Some row ->
     comparable row i) ->
  exists us,
    toUpdate issues existingRows = Ok us
    /\ importIssuesToAirtable create update issues existingRows
       = Some (length (toInsert issues existingRows), length us)
    /\ length (toInsert issues existingRows) + length us <= length issues.
Proof.
  intros Hc Hu Hcomp.
  assert (Hex : exists us, toUpdate issues existingRows = Ok us).
  { unfold toUpdate, rowsToUpdate, issuesToUpdate.
    destruct (filterR_total (needsUpdate (issueNumbersToExistingRows existingRows))
                (existingIssues issues existingRows)) as [kept Hk].
    { apply List.Forall_forall. intros i Hi.
      apply existingIssues_In in Hi as [Hi [row Hrow]].
      unfold needsUpdate. rewrite Hrow. apply forIn_total.
      intros key v elems. by apply (Hcomp i row). }
    rewrite Hk. simpl.
    rewrite (mapR_total _ (fun i =>
      {| update_id := match existingRowFor (issueNumbersToExistingRows existingRows)
                              (number i) with
                      | Some row => id row
                      | None => ""
                      end;
         update_fields := fieldsFromIssue i |})); [by eexists|].
    apply List.Forall_forall. intros i Hi.
    apply (filterR_elem _ _ _ i Hk) in Hi as [Hi _].
    apply existingIssues_In in Hi as [_ [row Hrow]].
    unfold toUpdateRecord. by rewrite Hrow. }
  destruct Hex as [us Hus]. exists us. split; [done|]. split.
  - apply import_counts; [done|done|]. by exists us.
  - pose proof (rowsToUpdate_length _ _ _ Hus) as Hlen.
    assert (Hpart : length (toInsert issues existingRows)
                    + length (existingIssues issues existingRows) = length issues)
      by apply filter_partition_length.
    lia.
Qed.

Lemma import_reports_each_issue_once_witness :
  exists us,
    toUpdate [sampleIssue 5 "closed" ["bug"; "ui"] None; sampleIssue 6 "open" [] None]
      [sampleRow "rec5" (storedIssue5 (VPrim (Str "bug,ui")) "open")] = Ok us
    /\ length us = 1.
Proof.
  destruct (import_reports_each_issue_once
              (fun chunk => Ok (List.map (fun _ => tt) chunk))
              (fun chunk => Ok (List.map (fun _ => tt) chunk))
              [sampleIssue 5 "closed" ["bug"; "ui"] None; sampleIssue 6 "open" [] None]
              [sampleRow "rec5" (storedIssue5 (VPrim (Str "bug,ui")) "open")])
    as (us & Hus & _ & _).
  - intros chunk _. eexists. split; [reflexivity|]. apply length_map.
  - intros chunk _. eexists. split; [reflexivity|]. apply length_map.
  - intros i row [<-|[<-|[]]] Hrow key v elems Hin Hcell.
    + injection Hrow as <-. simpl in Hin.
      repeat (destruct Hin as [[= <- <-]|Hin]; [try discriminate Hcell; by eauto|]).
      destruct Hin.
    + discriminate Hrow.
  - exists us. split; [done|]. vm_compute in Hus. by injection Hus as <-.
Defined.

Lemma toInsert_empty_table (issues : list Issue) : toInsert issues [] = issues.
Proof.
  unfold toInsert. apply filter_all. intros i _.
  apply negb_true_iff, hasExistingRow_false. unfold existingRowFor. apply lookup_empty.
Qed.

Lemma existingIssues_empty_table (issues : list Issue) : existingIssues issues [] = [].
Proof.
  unfold existingIssues. apply filter_none. intros i _.
  apply hasExistingRow_false. unfold existingRowFor. apply lookup_empty.
Qed.

(** X15.  Against an empty table the importer does what the insert-only
    importer of [ghair.js] does on the same issues: the same calls to
    [create] decide the outcome, the first count is the number [ghair.js]
    reports and the second is 0; a rejected [create] leaves both with
    [undefined]. *)
Theorem empty_table_agrees_with_ghair {R : Type}
    (create : list (list (string * Prim)) -> Result (list R))
    (update : list Update -> Result (list R))
    (issues : list Issue) :
  importIssuesToAirtable create update issues []
  = (fun n => (n, 0)) <$> Ghair.importIssuesToAirtable create issues.
Proof.
  unfold importIssuesToAirtable, insertNewRows, updateExistingRows,
    Ghair.importIssuesToAirtable, writeChunks.
  rewrite toInsert_empty_table, existingIssues_empty_table. simpl.
  rewrite chunks_nil. simpl.
  change (List.map Ghair.allIssuesEntry issues) with (List.map fieldsFromIssue issues).
  by destruct (promiseAll create _).
Qed.

(** ** The number of calls *)

Lemma chunkLoop_count {A} (rows : list A) (startIndex : nat) :
  List.map length (chunkLoop rows startIndex)
  = (repeat 10 ((length rows - startIndex) / 10)
     ++ if ((length rows - startIndex) mod 10 =? 0)%nat then []
        else [(length rows - startIndex) mod 10])%list.
Proof.
  remember (length rows - startIndex) as fuel eqn:Hfuel.
  revert startIndex Hfuel.
  induction fuel as [fuel IH] using lt_wf_ind; intros startIndex Hfuel.
  rewrite chunkLoop_lengths. destruct (decide (startIndex < length rows)) as [Hlt|Hge].
  - rewrite (IH (length rows - (startIndex + 10))) by lia.
    rewrite <- Hfuel. destruct (decide (10 <= fuel)) as [Hbig|Hsmall].
    + replace (fuel / 10) with (S ((length rows - (startIndex + 10)) / 10)).
      * replace ((length rows - (startIndex + 10)) mod 10) with (fuel mod 10).
        -- replace (10 `min` fuel) with 10 by lia. reflexivity.
        -- subst fuel. replace (length rows - startIndex)
             with ((length rows - (startIndex + 10)) + 1 * 10) by lia.
           by rewrite Nat.Div0.mod_add.
      * subst fuel. replace (length rows - startIndex)
          with ((length rows - (startIndex + 10)) + 1 * 10) by lia.
        rewrite Nat.div_add by done. lia.
    + replace (length rows - (startIndex + 10)) with 0 by lia.
      rewrite (Nat.div_small fuel 10), (Nat.mod_small fuel 10) by lia.
      rewrite (Nat.div_small 0 10), (Nat.mod_small 0 10) by lia.
      replace (10 `min` fuel) with fuel by lia.
      destruct (fuel =? 0)%nat eqn:H0; [apply Nat.eqb_eq in H0; lia|].
      reflexivity.
  - replace fuel with 0 by lia. reflexivity.
Qed.

(** X16.  A batch of [n] rows goes out in [n / 10] calls of exactly ten
    rows followed, when [n] is not a multiple of ten, by one call with
    the remaining [n mod 10]; an empty batch makes no call. *)
Theorem chunk_sizes (A : Type) (rows : list A) :
  List.map length (chunks rows)
  = (repeat 10 (length rows / 10)
     ++ if (length rows mod 10 =? 0)%nat then [] else [length rows mod 10])%list
  /\ length (chunks rows) = (length rows + 9) / 10.
Proof.
  assert (Hsizes : List.map length (chunks rows)
    = (repeat 10 (length rows / 10)
       ++ if (length rows mod 10 =? 0)%nat then [] else [length rows mod 10])%list).
  { unfold chunks. rewrite chunkLoop_count. by rewrite Nat.sub_0_r. }
  split; [done|].
  rewrite <- (length_map length), Hsizes, length_app, repeat_length.
  pose proof (Nat.div_mod_eq (length rows) 10) as Hdm.
  pose proof (Nat.mod_upper_bound (length rows) 10 ltac:(done)) as Hub.
  destruct (length rows mod 10 =? 0)%nat eqn:H0; cbn [length].
  - apply Nat.eqb_eq in H0. rewrite H0 in Hdm.
    apply (Nat.div_unique _ _ _ 9); lia.
  - apply Nat.eqb_neq in H0.
    apply (Nat.div_unique _ _ _ (length rows mod 10 - 1)); lia.
Qed.

(** ** The whole run *)

Lemma getExistingAirtableIssueRows_concat (pages : list (list Row)) :
  getExistingAirtableIssueRows (Ok pages) = Ok (concat pages).
Proof.
  unfold getExistingAirtableIssueRows. simpl. f_equal.
  assert (H : forall acc, fold_left (fun allRecords records => allRecords ++ records)%list
                            pages acc = (acc ++ concat pages)%list).
  { induction pages as [|p pages IH]; intros acc; simpl.
    - by rewrite app_nil_r.
    - by rewrite IH, app_assoc. }
  by rewrite H.
Qed.

Lemma validateOptions_silent (options : Cli.Options) :
  snd (Cli.validateOptions options) = Cli.Returns ->
  Cli.validateOptions options = ([], Cli.Returns).
Proof.
  unfold Cli.validateOptions. rewrite !requireArg_eq.
  set (t1 := truthyPrim (Cli.optionValue (Cli.githubToken options))).
  set (t2 := truthyPrim (Cli.optionValue (Cli.airtableApiKey options))).
  set (t3 := truthyPrim (Cli.optionValue (Cli.airtableBase options))).
  set (t4 := truthyPrim (Cli.optionValue (Cli.airtableTable options))).
  set (t5 := truthyPrim (Cli.optionValue (Cli.githubUrl options))).
  clearbody t1 t2 t3 t4 t5.
  destruct (Cli.state options) as [s|]; [|discriminate].
  destruct (Cli.includes ["open"; "closed"; "all"] (Cli.toLowerCase s)),
    t1, t2, t3, t4, t5; cbn [fst snd orb negb app]; intros H;
    first [discriminate H | reflexivity].
Qed.

(** X17.  A run that reaches its last message passed validation without
    logging, obtained the listing and all the pages of rows, and, with a
    service that answers one record per row, printed counts that are the
    number of listed issues without a row and a number of updates, their
    sum being at most the number of listed elements that are not pull
    requests: a pull request is never counted, and so never written. *)
Theorem completed_run {R : Type}
    (paginate : ListRequest -> Result (list Item))
    (eachPage : Result (list (list Row)))
    (create : list (list (string * Prim)) -> Result (list R))
    (update : list Update -> Result (list R))
    (options : Cli.Options) (a b : nat) :
  githubAirtableImport paginate eachPage create update options = Completed a b ->
  oneRecordPerRow create -> oneRecordPerRow update ->
  Cli.validateOptions options = ([], Cli.Returns)
  /\ exists url data pages,
       Cli.githubUrl options = Some url
       /\ paginate {| req_owner := fst (ownerRepo url);
                      req_repo := snd (ownerRepo url);
                      per_page := 100;
                      req_state := Cli.optionValue (Cli.state options) |} = Ok data
       /\ eachPage = Ok pages
       /\ exists issues,
            fetchGithubIssues (Ok data) = Ok issues
            /\ Forall (fun i => exists item, In item data /\ item_issue item = i
                                             /\ pull_request item = None) issues
            /\ a = length (toInsert issues (concat pages))
            /\ a + b <= length issues
            /\ length issues <= length data.
Proof.
  unfold githubAirtableImport. intros Hrun Hc Hu.
  destruct (Cli.validateOptions options) as [logged outcome] eqn:Hv.
  simpl in Hrun. destruct outcome; try discriminate.
  destruct (Cli.githubUrl options) as [url|] eqn:Hurl; [|discriminate].
  unfold listRequest in Hrun.
  destruct (paginate _) as [data|] eqn:Hp; [|discriminate]. simpl in Hrun.
  destruct eachPage as [pages|]; [|discriminate].
  rewrite getExistingAirtableIssueRows_concat in Hrun.
  destruct (importIssuesToAirtable create update _ (concat pages))
    as [[a' b']|] eqn:Himp; [|discriminate].
  injection Hrun as -> ->.
  apply import_counts in Himp as (us & Hus & Ha & Hb); [|done|done].
  split.
  - rewrite <- Hv. apply validateOptions_silent. by rewrite Hv.
  - exists url, data, pages. repeat split; try done.
    eexists. split; [reflexivity|]. split; [|split; [done|split]].
    + apply List.Forall_forall. intros i Hi.
      apply in_map_iff in Hi as (item & <- & Hitem).
      apply filter_In in Hitem as [Hitem Hpr]. exists item.
      repeat split; try done. by destruct (pull_request item).
    + pose proof (rowsToUpdate_length _ _ _ Hus) as Hlen.
      match goal with |- _ <= length ?l =>
        assert (Hpart : length (toInsert l (concat pages))
                        + length (existingIssues l (concat pages)) = length l)
          by apply filter_partition_length
      end.
      lia.
    + rewrite length_map. apply filter_length_le.
Qed.

Lemma completed_run_witness :
  Cli.validateOptions (sampleOptions (Some "ALL")) = ([], Cli.Returns).
Proof.
  refine (proj1 (completed_run
    (fun _ => Ok [ {| item_issue := sampleIssue 1 "open" ["bug"] None;
                      pull_request := None |};
                   {| item_issue := sampleIssue 2 "open" [] None;
                      pull_request := Some {| pr_html_url := "https://github.com/o/r/pull/2" |} |} ])
    (Ok [[]])
    (fun chunk => Ok (List.map (fun _ => tt) chunk))
    (fun chunk => Ok (List.map (fun _ => tt) chunk))
    (sampleOptions (Some "ALL")) 1 0 _ _ _)).
  - reflexivity.
  - intros chunk _. eexists. split; [reflexivity|]. apply length_map.
  - intros chunk _. eexists. split; [reflexivity|]. apply length_map.
Defined.

(** X18.  In [ghair.js], once validation has passed and the listing has
    been obtained, the run always reaches its last message; the count it
    prints is [undefined] exactly when the service rejected the call for
    one of the chunks. *)
Theorem ghair_run_survives_a_rejected_write {R : Type}
    (paginate : ListRequest -> Result (list Item))
    (create : list (list (string * Prim)) -> Result (list R))
    (options : Cli.Options) (url : string) (data : list Item) :
  snd (Cli.validateOptions options) = Cli.Returns ->
  Cli.githubUrl options = Some url ->
  paginate {| req_owner := fst (ownerRepo url); req_repo := snd (ownerRepo url);
              per_page := 100;
              req_state := Cli.optionValue (Cli.state options) |} = Ok data ->
  forall issues, fetchGithubIssues (Ok data) = Ok issues ->
  (exists count,
     GhairMain.githubAirtableImport paginate create options
     = GhairMain.Completed count)
  /\ (GhairMain.githubAirtableImport paginate create options
      = GhairMain.Completed None
      <-> exists chunk, In chunk (chunks (List.map fieldsFromIssue issues))
                        /\ create chunk = Thrown).
Proof.
  intros Hv Hurl Hp issues Hissues. unfold GhairMain.githubAirtableImport.
  rewrite Hv, Hurl, Hp, Hissues. split; [by eexists|].
  rewrite <- writeChunks_Thrown. unfold Ghair.importIssuesToAirtable, writeChunks.
  change (List.map Ghair.allIssuesEntry issues) with (List.map fieldsFromIssue issues).
  by destruct (promiseAll create _).
Qed.

Lemma ghair_run_survives_a_rejected_write_witness :
  GhairMain.githubAirtableImport (Record_ := unit)
    (fun _ => Ok [ {| item_issue := sampleIssue 1 "open" ["bug"] None;
                      pull_request := None |} ])
    (fun _ => Thrown) (sampleOptions (Some "open"))
  = GhairMain.Completed None.
Proof.
  apply (proj2 (ghair_run_survives_a_rejected_write
    (fun _ => Ok [ {| item_issue := sampleIssue 1 "open" ["bug"] None;
                      pull_request := None |} ])
    (fun _ => Thrown) (sampleOptions (Some "open"))
    "everydotorg/github-airtable-importer"
    [ {| item_issue := sampleIssue 1 "open" ["bug"] None; pull_request := None |} ]
    eq_refl eq_refl eq_refl _ eq_refl)).
  eexists. split; [by left|reflexivity].
Defined.

(** X19.  In the reconciling importer a rejected call is fatal: when the
    service rejects the call for one of the chunks of new rows, or for
    one of the chunks of update records, the run ends with a rejected
    promise instead of its last message. *)
Theorem rejected_write_rejects_run {R : Type}
    (paginate : ListRequest -> Result (list Item))
    (eachPage : Result (list (list Row)))
    (create : list (list (string * Prim)) -> Result (list R))
    (update : list Update -> Result (list R))
    (options : Cli.Options) (url : string) (data : list Item)
    (pages : list (list Row)) :
  snd (Cli.validateOptions options) = Cli.Returns ->
  Cli.githubUrl options = Some url ->
  paginate {| req_owner := fst (ownerRepo url); req_repo := snd (ownerRepo url);
              per_page := 100;
              req_state := Cli.optionValue (Cli.state options) |} = Ok data ->
  eachPage = Ok pages ->
  forall issues, fetchGithubIssues (Ok data) = Ok issues ->
  (exists chunk,
     In chunk (chunks (List.map fieldsFromIssue (toInsert issues (concat pages))))
     /\ create chunk = Thrown)
  \/ (exists us chunk,
        toUpdate issues (concat pages) = Ok us
        /\ In chunk (chunks us) /\ update chunk = Thrown) ->
  githubAirtableImport paginate eachPage create update options = Rejected.
Proof.
  intros Hv Hurl Hp Hpages issues Hissues Hfail.
  unfold githubAirtableImport, listRequest.
  rewrite Hv, Hurl, Hp, Hissues, Hpages, getExistingAirtableIssueRows_concat.
  replace (importIssuesToAirtable create update issues (concat pages)) with
    (@None (nat * nat)); [done|].
  symmetry. unfold importIssuesToAirtable, insertNewRows, updateExistingRows.
  destruct Hfail as [Hc|(us & chunk & Hus & Hin & Hu)].
  - apply writeChunks_Thrown in Hc. by rewrite Hc.
  - unfold toUpdate in Hus. rewrite Hus. simpl.
    replace (writeChunks update us) with (@Thrown nat).
    + by destruct (writeChunks create _).
    + symmetry. apply writeChunks_Thrown. by exists chunk.
Qed.

Lemma rejected_write_rejects_run_witness :
  githubAirtableImport (Record_ := unit)
    (fun _ => Ok [ {| item_issue := sampleIssue 1 "open" ["bug"] None;
                      pull_request := None |} ])
    (Ok [[]]) (fun _ => Thrown) (fun _ => Thrown) (sampleOptions (Some "open"))
  = Rejected.
Proof.
  apply (rejected_write_rejects_run
    (fun _ => Ok [ {| item_issue := sampleIssue 1 "open" ["bug"] None;
                      pull_request := None |} ])
    (Ok [[]]) (fun _ => Thrown) (fun _ => Thrown) (sampleOptions (Some "open"))
    "everydotorg/github-airtable-importer"
    [ {| item_issue := sampleIssue 1 "open" ["bug"] None; pull_request := None |} ]
    [[]] eq_refl eq_refl eq_refl eq_refl _ eq_refl).
  left. eexists. split; [by left|reflexivity].
Defined.
